(** * Cross-account CI/CD bootstrap: shell orchestration and CDK stacks

    A shallow embedding of
    - the bootstrap script [automate_deployment.sh] (a small shell monad
      with background jobs, the [sed]/[awk] key-ARN extraction),
    - the CDK app [bin/cross-account-pipeline.ts],
    - [lib/application-stack.ts] and the two variants of
      [lib/pipeline-stack.ts],
    together with the properties stated about them. *)

From Stdlib Require Import String Ascii List Bool Arith Lia.
From stdpp Require Import gmap strings.
Import ListNotations.

Local Open Scope string_scope.
Local Open Scope list_scope.

(* ===================================================================== *)
(** ** Text utilities: lines, fields, patterns *)
(* ===================================================================== *)

Module Text.

(** Line feed, the record separator of [sed] and [awk]. *)
Definition LF : ascii := "010"%char.
Definition TAB : ascii := "009"%char.

(** Blank characters: the default field separator of [awk] (also what
    [-F " "] selects) and the shell's default [IFS]. *)
Definition is_blank (c : ascii) : bool :=
  Ascii.eqb c " "%char || Ascii.eqb c TAB || Ascii.eqb c LF.

(** The lines of a text as [sed] and [awk] read them: every [LF] ends a
    line; a last line without [LF] is still a line. *)
Fixpoint lines (s : string) : list string :=
  match s with
  | EmptyString => []
  | String c s' =>
      if Ascii.eqb c LF then EmptyString :: lines s'
      else match lines s' with
           | [] => [String c EmptyString]
           | l :: ls => String c l :: ls
           end
  end.

(** Printing lines: each one followed by [LF]. *)
Fixpoint unlines (ls : list string) : string :=
  match ls with
  | [] => EmptyString
  | l :: ls' => l +:+ String LF (unlines ls')
  end.

(** An unanchored regular expression without metacharacters ([/Outputs:/],
    [/KeyArn/]) matches the lines that contain it. *)
Fixpoint contains (pat s : string) : bool :=
  String.prefix pat s ||
  match s with
  | EmptyString => false
  | String _ s' => contains pat s'
  end.

(** [/^$/] matches the empty line. *)
Definition is_empty (s : string) : bool :=
  match s with EmptyString => true | _ => false end.

(** Field splitting on runs of blanks, leading and trailing blanks
    ignored ([awk]'s default, the shell's word splitting). *)
Fixpoint fields (s : string) : list string :=
  match s with
  | EmptyString => []
  | String c s' =>
      if is_blank c then fields s'
      else match s' with
           | EmptyString => [String c EmptyString]
           | String c' _ =>
               if is_blank c' then String c EmptyString :: fields s'
               else match fields s' with
                    | f :: fs => String c f :: fs
                    | [] => [String c EmptyString]
                    end
           end
  end.

(** [$n] of [awk] (1-based); the empty string when the record has fewer
    fields. *)
Definition field (n : nat) (record : string) : string :=
  nth (pred n) (fields record) EmptyString.

(** Command substitution [$(...)] removes all trailing newlines. *)
Fixpoint strip_trailing_newlines (s : string) : string :=
  match s with
  | EmptyString => EmptyString
  | String c s' =>
      let r := strip_trailing_newlines s' in
      if Ascii.eqb c LF && is_empty r then EmptyString else String c r
  end.

(** [sed -n -e '/Outputs:/,/^$/ p']: a range opens at a line matching
    [/Outputs:/] and closes at the next later line matching [/^$/]; the
    lines of the range are printed; after a range has closed a new one
    can open. [active] tells whether a range is open. *)
Fixpoint sed_range (active : bool) (ls : list string) : list string :=
  match ls with
  | [] => []
  | l :: ls' =>
      if active then l :: sed_range (negb (is_empty l)) ls'
      else if contains "Outputs:" l then l :: sed_range true ls'
      else sed_range false ls'
  end.

(** Whether a text stops in the middle of a line: its last line has no
    [LF] behind it. *)
Fixpoint unterminated (s : string) : bool :=
  match s with
  | EmptyString => false
  | String c s' =>
      match s' with
      | EmptyString => negb (Ascii.eqb c LF)
      | String _ _ => unterminated s'
      end
  end.

(** What the [p] commands of that script write. [sed] ends a printed line
    with [LF], except the last line of an input that stops without one
    ([missing_LF]): that line is written as it was read. *)
Fixpoint sed_print (missing_LF active : bool) (ls : list string) : string :=
  match ls with
  | [] => EmptyString
  | l :: ls' =>
      let printed :=
        match ls' with
        | [] => if missing_LF then l else l +:+ String LF EmptyString
        | _ :: _ => l +:+ String LF EmptyString
        end in
      if active then printed +:+ sed_print missing_LF (negb (is_empty l)) ls'
      else if contains "Outputs:" l then printed +:+ sed_print missing_LF true ls'
      else sed_print missing_LF false ls'
  end.

Definition sed_Outputs (text : string) : string :=
  sed_print (unterminated text) false (lines text).

(** [awk -F " " '/KeyArn/ { print $3 }']: for every record containing
    [KeyArn], the third field and a newline. *)
Fixpoint awk_print3 (ls : list string) : string :=
  match ls with
  | [] => EmptyString
  | l :: ls' =>
      if contains "KeyArn" l
      then field 3 l +:+ String LF (awk_print3 ls')
      else awk_print3 ls'
  end.

Definition awk_KeyArn (text : string) : string := awk_print3 (lines text).

(** The value of [KEY_ARN] for a given content of the captured output:
<<
  sed -n -e '/Outputs:/,/^$/ p' ${CDK_OUTPUT_FILE} > .cfn_outputs
  KEY_ARN=$(awk -F " " '/KeyArn/ { print $3 }' .cfn_outputs)
>> *)
Definition cfn_outputs (cdk_output : string) : string := sed_Outputs cdk_output.

Definition extract_key_arn (cdk_output : string) : string :=
  strip_trailing_newlines (awk_KeyArn (cfn_outputs cdk_output)).

(** All characters of a string satisfy a test. *)
Fixpoint all_chars (p : ascii -> bool) (s : string) : bool :=
  match s with
  | EmptyString => true
  | String c s' => p c && all_chars p s'
  end.

Definition no_LF (s : string) : Prop :=
  all_chars (fun c => negb (Ascii.eqb c LF)) s = true.

Definition no_blank (s : string) : Prop :=
  all_chars (fun c => negb (is_blank c)) s = true.

(** Modelled after the specification's wording, for comparison with the
    filters above: the lines from the first line matching [Outputs:]
    through the next blank line. *)
Fixpoint through_blank (ls : list string) : list string :=
  match ls with
  | [] => []
  | l :: ls' => if is_empty l then [l] else l :: through_blank ls'
  end.

Fixpoint first_Outputs_region (ls : list string) : list string :=
  match ls with
  | [] => []
  | l :: ls' =>
      if contains "Outputs:" l then l :: through_blank ls'
      else first_Outputs_region ls'
  end.

(** The specification's wording of the result: the third
    whitespace-delimited token of a line of that region containing
    [KeyArn]; empty when there is none. *)
Inductive spec_key_arn (text : string) : string -> Prop :=
| spec_key_arn_found l :
    In l (first_Outputs_region (lines text)) ->
    contains "KeyArn" l = true ->
    spec_key_arn text (field 3 l)
| spec_key_arn_none :
    Forall (fun l => contains "KeyArn" l = false)
           (first_Outputs_region (lines text)) ->
    spec_key_arn text EmptyString.

(** The extraction as the specification words it. *)
Definition spec_extraction (text : string) : Prop :=
  sed_range false (lines text) = first_Outputs_region (lines text) /\
  spec_key_arn text (extract_key_arn text).

End Text.


(** Sample captured outputs. *)
Module Samples.
Import Text.

(** The text of the specification's example. *)
Definition example_block : string :=
  unlines ["Outputs:"; "  ... KeyArn   abcd1234 ..."; ""].

(** A captured output with two [Outputs:] sections. *)
Definition two_sections : string :=
  unlines ["Outputs:"; "RepositoryStack.Name = repo-111111111111"; "";
           "Outputs:";
           "CrossAccountPipelineStack.ArtifactBucketEncryptionKeyArn = arn:aws:kms:us-west-2:111111111111:key/abc";
           ""].

(** A single [Outputs:] section with two lines containing [KeyArn]. *)
Definition two_key_lines : string :=
  unlines ["Outputs:"; "S.FirstKeyArn = k1"; "S.SecondKeyArn = k2"; ""].

(** What a deployment of the pipeline stack prints at its end. *)
Definition pipeline_output : string :=
  unlines [" CrossAccountPipelineStack"; "";
           "Outputs:";
           "CrossAccountPipelineStack.ArtifactBucketEncryptionKeyArn = arn:aws:kms:us-west-2:111111111111:key/abc";
           "";
           "Stack ARN:";
           "arn:aws:cloudformation:us-west-2:111111111111:stack/CrossAccountPipelineStack/1"].

End Samples.

(* ===================================================================== *)
(** ** A small shell: programs, external commands, background jobs *)
(* ===================================================================== *)

Module Shell.
Import Text.

(** The words of a simple command. *)
Definition argv := list string.

(** What an external command gives back: its exit status and the text it
    wrote (stdout and stderr together, as [2>&1] merges them). *)
Record result := { status : nat; stdout : string }.

(** The outside world decides how the [n]-th launched command ends. *)
Definition world := nat -> result.

(** The two local files the script works with. *)
Record files := {
  cdk_output_file : option string;    (* .cdk_output *)
  cfn_outputs_file : option string    (* .cfn_outputs *)
}.

(** Shell programs. [Run] waits for the command; [Bg] is [c &];
    [RunTee] is [c 2>&1 | tee -a .cdk_output]; [Util] is a standard
    utility ([rm], [sed], [awk]) whose effect on the local files and
    whose output are known. *)
Inductive sh : Type :=
| Halt
| Exit
| Printf (format : string) (k : sh)
| Run (c : argv) (k : result -> sh)
| Bg (c : argv) (k : sh)
| RunTee (c : argv) (k : result -> sh)
| Util (c : argv) (f : files -> files * result) (k : result -> sh).

(** Statements are programs waiting for their continuation. *)
Definition stmt := sh -> sh.

Declare Scope sh_scope.
Delimit Scope sh_scope with sh.
Notation "s ;; k" := (s k)
  (at level 100, k at level 200, right associativity, only parsing) : sh_scope.

Definition printf (format : string) : stmt := Printf format.
Definition run (c : argv) : stmt := fun k => Run c (fun _ => k).
Definition bg (c : argv) : stmt := Bg c.
Definition run_tee (c : argv) : stmt := fun k => RunTee c (fun _ => k).
Definition util (c : argv) (f : files -> files * result) : stmt :=
  fun k => Util c f (fun _ => k).
Definition exit_ : stmt := fun _ => Exit.

(** [if cond; then body; fi] *)
Definition when (cond : bool) (body : stmt) : stmt :=
  fun k => if cond then body k else k.

(** [c1 && c2 && ... && cn]: the first failure skips the rest of the
    list; the script goes on with the next line either way. *)
Fixpoint and_list (cs : list argv) : stmt :=
  fun k =>
    match cs with
    | [] => k
    | c :: cs' =>
        Run c (fun r => if Nat.eqb (status r) 0 then and_list cs' k else k)
    end.

(** [${VAR}]: an unset variable expands to the empty string. *)
Definition expand (v : option string) : string :=
  match v with Some s => s | None => EmptyString end.

(** [[[ -z "..." ]]] *)
Definition test_z (s : string) : bool := is_empty s.

(** An unquoted word after parameter expansion undergoes word
    splitting on blanks (pathname expansion is not modelled). *)
Definition word (s : string) : list string := fields s.

(** *** Events and the sequential run *)

Inductive event :=
| Out (format : string)                          (* printf *)
| Started (pid : nat) (background : bool) (c : argv)
| Completed (pid : nat) (r : result)             (* a foreground command returned *)
| Finished (pid : nat) (r : result).             (* a background job ended *)

Inductive outcome := Ended | Exited.

Record run_result := {
  trace : list event;
  final_files : files;
  how : outcome
}.

Definition emit (es : list event) (r : run_result) : run_result :=
  {| trace := es ++ trace r; final_files := final_files r; how := how r |}.

Definition tee_append (fs : files) (text : string) : files :=
  {| cdk_output_file := Some (expand (cdk_output_file fs) +:+ text);
     cfn_outputs_file := cfn_outputs_file fs |}.

(** What the script does, command after command: [pid] numbers the
    launched commands. A background job is only [Started] here; when it
    ends is up to the scheduler below. *)
Fixpoint exec (w : world) (pid : nat) (fs : files) (p : sh) : run_result :=
  match p with
  | Halt => {| trace := []; final_files := fs; how := Ended |}
  | Exit => {| trace := []; final_files := fs; how := Exited |}
  | Printf t k => emit [Out t] (exec w pid fs k)
  | Run c k =>
      emit [Started pid false c; Completed pid (w pid)]
           (exec w (S pid) fs (k (w pid)))
  | Bg c k => emit [Started pid true c] (exec w (S pid) fs k)
  | RunTee c k =>
      emit [Started pid false c; Completed pid (w pid)]
           (exec w (S pid) (tee_append fs (stdout (w pid))) (k (w pid)))
  | Util c f k =>
      let '(fs', r) := f fs in
      emit [Started pid false c; Completed pid r] (exec w (S pid) fs' (k r))
  end.

(** The commands launched, in order. *)
Fixpoint launched (tr : list event) : list argv :=
  match tr with
  | [] => []
  | Started _ _ c :: tr' => c :: launched tr'
  | _ :: tr' => launched tr'
  end.

(** *** Background jobs

    The script's events happen in order; a running background job may
    end at any moment in between. *)
Record machine := {
  pending : list event;   (* what the script has still to do *)
  jobs : list nat;        (* background jobs still running *)
  log : list event        (* what has happened so far *)
}.

Definition spawned (e : event) : list nat :=
  match e with
  | Started pid true _ => [pid]
  | _ => []
  end.

Inductive step (w : world) : machine -> machine -> Prop :=
| step_script e tr js lg :
    step w {| pending := e :: tr; jobs := js; log := lg |}
           {| pending := tr; jobs := js ++ spawned e; log := lg ++ [e] |}
| step_job tr js1 pid js2 lg :
    step w {| pending := tr; jobs := js1 ++ pid :: js2; log := lg |}
           {| pending := tr; jobs := js1 ++ js2;
              log := lg ++ [Finished pid (w pid)] |}.

Definition boot (w : world) (fs : files) (p : sh) : machine :=
  {| pending := trace (exec w 0 fs p); jobs := []; log := [] |}.

Definition reachable (w : world) (fs : files) (p : sh) (m : machine) : Prop :=
  rtc (step w) (boot w fs p) m.

(** The log without the ends of background jobs: the script's own part. *)
Definition is_finished (e : event) : bool :=
  match e with Finished _ _ => true | _ => false end.

Definition own (lg : list event) : list event :=
  List.filter (fun e => negb (is_finished e)) lg.

End Shell.

(* ===================================================================== *)
(** ** The bootstrap script [automate_deployment.sh] *)
(* ===================================================================== *)

Module Bootstrap.
Import Text Shell.
Local Open Scope sh_scope.

(** The three account identifiers taken from the environment. *)
Record environ := {
  TOOLS_ACCOUNT_ID : option string;
  UAT_ACCOUNT_ID : option string;
  PROD_ACCOUNT_ID : option string
}.

Section Script.
Variable env : environ.

Let T := expand (TOOLS_ACCOUNT_ID env).
Let U := expand (UAT_ACCOUNT_ID env).
Let P := expand (PROD_ACCOUNT_ID env).

(** *** Phase 1: roles without policies *)

Definition roles1_cross_uat : argv :=
  ["aws"; "cloudformation"; "deploy";
   "--template-file"; "templates/CodePipelineCrossAccountRole.yml";
   "--stack-name"; "CodePipelineCrossAccountRole";
   "--capabilities"; "CAPABILITY_NAMED_IAM";
   "--profile"; "uat";
   "--parameter-overrides"] ++ word ("ToolsAccountID=" +:+ T) ++ ["Stage=Uat"].

Definition roles1_cfn_uat : argv :=
  ["aws"; "cloudformation"; "deploy";
   "--template-file"; "templates/CloudFormationDeploymentRole.yml";
   "--stack-name"; "CloudFormationDeploymentRole";
   "--capabilities"; "CAPABILITY_NAMED_IAM";
   "--profile"; "uat";
   "--parameter-overrides"] ++ word ("ToolsAccountID=" +:+ T) ++ ["Stage=Uat"].

Definition roles1_cross_prod : argv :=
  ["aws"; "cloudformation"; "deploy";
   "--template-file"; "templates/CodePipelineCrossAccountRole.yml";
   "--stack-name"; "CodePipelineCrossAccountRole";
   "--capabilities"; "CAPABILITY_NAMED_IAM";
   "--profile"; "prod";
   "--parameter-overrides"] ++ word ("ToolsAccountID=" +:+ T) ++ ["Stage=Prod"].

Definition roles1_cfn_prod : argv :=
  ["aws"; "cloudformation"; "deploy";
   "--template-file"; "templates/CloudFormationDeploymentRole.yml";
   "--stack-name"; "CloudFormationDeploymentRole";
   "--capabilities"; "CAPABILITY_NAMED_IAM";
   "--profile"; "prod";
   "--parameter-overrides"] ++ word ("ToolsAccountID=" +:+ T) ++ ["Stage=Prod"].

(** *** Repository and pipeline stacks *)

Definition npm_install : argv := ["npm"; "install"].
Definition npm_audit_fix : argv := ["npm"; "audit"; "fix"].
Definition npm_run_build : argv := ["npm"; "run"; "build"].
Definition cdk_synth : argv := ["cdk"; "synth"].

(** The source has a dash character in front of [profile], not [--]. *)
Definition cdk_deploy_RepositoryStack : argv :=
  ["cdk"; "deploy"; "RepositoryStack"; "—profile"; "pipeline"].

Definition CDK_OUTPUT_FILE : string := ".cdk_output".

Definition rm_rf_outputs : argv := ["rm"; "-rf"; CDK_OUTPUT_FILE; ".cfn_outputs"].

Definition cdk_deploy_CrossAccountPipelineStack : argv :=
  ["npx"; "cdk"; "deploy"; "CrossAccountPipelineStack"; "--context"]
  ++ word ("prod-account=" +:+ P)
  ++ ["--context"] ++ word ("uat-account=" +:+ U)
  ++ ["—profile"; "pipeline"; "--require-approval"; "never"].

Definition sed_outputs : argv :=
  ["sed"; "-n"; "-e"; "/Outputs:/,/^$/ p"; CDK_OUTPUT_FILE].

Definition awk_key_arn : argv :=
  ["awk"; "-F"; " "; "/KeyArn/ { print $3 }"; ".cfn_outputs"].

(** *** Phase 2: the same roles, with the key *)

Section WithKey.
Variable KEY_ARN : string.

Definition roles2_cross_uat : argv :=
  ["aws"; "cloudformation"; "deploy";
   "--template-file"; "templates/CodePipelineCrossAccountRole.yml";
   "--stack-name"; "CodePipelineCrossAccountRole";
   "--capabilities"; "CAPABILITY_NAMED_IAM";
   "--profile"; "uat";
   "--parameter-overrides"] ++ word ("ToolsAccountID=" +:+ T) ++ ["Stage=Uat"]
  ++ word ("KeyArn=" +:+ KEY_ARN).

Definition roles2_cfn_uat : argv :=
  ["aws"; "cloudformation"; "deploy";
   "--template-file"; "templates/CloudFormationDeploymentRole.yml";
   "--stack-name"; "CloudFormationDeploymentRole";
   "--capabilities"; "CAPABILITY_NAMED_IAM";
   "--profile"; "uat";
   "--parameter-overrides"] ++ word ("ToolsAccountID=" +:+ T) ++ ["Stage=Uat"]
  ++ word ("KeyArn=" +:+ KEY_ARN).

Definition roles2_cfn_prod : argv :=
  ["aws"; "cloudformation"; "deploy";
   "--template-file"; "templates/CloudFormationDeploymentRole.yml";
   "--stack-name"; "CloudFormationDeploymentRole";
   "--capabilities"; "CAPABILITY_NAMED_IAM";
   "--profile"; "prod";
   "--parameter-overrides"] ++ word ("ToolsAccountID=" +:+ T) ++ ["Stage=Prod"]
  ++ word ("KeyArn=" +:+ KEY_ARN).

Definition roles2_cross_prod : argv :=
  ["aws"; "cloudformation"; "deploy";
   "--template-file"; "templates/CodePipelineCrossAccountRole.yml";
   "--stack-name"; "CodePipelineCrossAccountRole";
   "--capabilities"; "CAPABILITY_NAMED_IAM";
   "--profile"; "prod";
   "--parameter-overrides"] ++ word ("ToolsAccountID=" +:+ T) ++ ["Stage=Prod"]
  ++ word ("KeyArn=" +:+ KEY_ARN).

End WithKey.

(** *** Initial commit and push *)

Definition git_init : argv := ["git"; "init"].
Definition git_branch_main : argv := ["git"; "branch"; "-m"; "main"].
Definition git_add : argv := ["git"; "add"; "."].
Definition git_commit : argv := ["git"; "commit"; "-m"; "Initial commit"].
Definition git_remote_rm : argv := ["git"; "remote"; "rm"; "origin"].
Definition git_remote_add : argv :=
  ["git"; "remote"; "add"; "origin"]
  ++ word ("https://git-codecommit.us-west-2.amazonaws.com/v1/repos/repo-" +:+ T).
Definition git_config_remove : argv := ["git"; "config"; "main.remove"; "origin"].
Definition git_config_merge : argv :=
  ["git"; "config"; "main.merge"; "refs/heads/main"].
Definition git_push : argv := ["git"; "push"; "--set-upstream"; "origin"; "main"].

Definition rm_outputs : argv := ["rm"; CDK_OUTPUT_FILE; ".cfn_outputs"].

(** *** The standard utilities on the two local files *)

Definition ok (text : string) : result := {| status := 0; stdout := text |}.

(** [rm -rf .cdk_output .cfn_outputs] *)
Definition do_rm_rf (fs : files) : files * result :=
  ({| cdk_output_file := None; cfn_outputs_file := None |}, ok EmptyString).

(** [sed -n -e '/Outputs:/,/^$/ p' .cdk_output > .cfn_outputs]: the
    redirection creates the file even when [sed] cannot read its input. *)
Definition do_sed (fs : files) : files * result :=
  ({| cdk_output_file := cdk_output_file fs;
      cfn_outputs_file := Some (sed_Outputs (expand (cdk_output_file fs))) |},
   {| status := match cdk_output_file fs with Some _ => 0 | None => 2 end;
      stdout := EmptyString |}).

(** [awk -F " " '/KeyArn/ { print $3 }' .cfn_outputs] *)
Definition do_awk (fs : files) : files * result :=
  (fs,
   {| status := match cfn_outputs_file fs with Some _ => 0 | None => 2 end;
      stdout := awk_KeyArn (expand (cfn_outputs_file fs)) |}).

(** [rm .cdk_output .cfn_outputs] *)
Definition do_rm (fs : files) : files * result :=
  ({| cdk_output_file := None; cfn_outputs_file := None |},
   {| status := match cdk_output_file fs, cfn_outputs_file fs with
                | Some _, Some _ => 0
                | _, _ => 1
                end;
      stdout := EmptyString |}).

(** *** The script *)

Definition diagnostic_accounts : list string :=
  ["Please set TOOLS_ACCOUNT_ID, UAT_ACCOUNT_ID, and PROD_ACCOUNT_ID";
   "TOOLS_ACCOUNT_ID =";
   "UAT_ACCOUNT_ID =";
   "PROD_ACCOUNT_ID ="].

Definition diagnostic_key : string :=
  "\nSomething went wrong - we didn't get a Key ARN as an output from the CDK Pipeline deployment".

(** The initial commit, the hints and the clean-up that end the script. *)
Definition commit_and_cleanup : sh :=
  (* Commit initial code to new repo *)
  printf "\nCommitting code to repository\n" ;;
  and_list [git_init; git_branch_main; git_add; git_commit; git_remote_rm] ;;
  run git_remote_add ;;
  and_list [git_config_remove; git_config_merge; git_push] ;;
  (* Get deployed API Gateway endpoints *)
  printf "\nUse the following commands to get the Endpoints for deployed environemnts: " ;;
  printf "\n  aws cloudformation describe-stacks --stack-name UatApplicationDeploymentStack   --profile uat | grep OutputValue" ;;
  printf "\n  aws cloudformation describe-stacks --stack-name ProdApplicationDeploymentStack   --profile prod | grep OutputValue" ;;
  (* Clean up temporary files *)
  util rm_outputs do_rm ;;
  Halt.

(** Everything from the key check on, given the value of [KEY_ARN]. *)
Definition after_extraction (KEY_ARN : string) : sh :=
  (* KEY_ARN must be set after the CDK deployment *)
  when (test_z KEY_ARN) (fun k =>
    printf diagnostic_key ;;
    exit_ ;; k) ;;
  (* Update the CloudFormation roles with the Key ARN in parallel *)
  printf "\nUpdating roles with policies in UAT and Prod\n" ;;
  bg (roles2_cross_uat KEY_ARN) ;;
  bg (roles2_cfn_uat KEY_ARN) ;;
  bg (roles2_cfn_prod KEY_ARN) ;;
  run (roles2_cross_prod KEY_ARN) ;;
  commit_and_cleanup.

Definition automate_deployment : sh :=
  (* If prerequisite account values aren't set, exit *)
  when (test_z T || test_z U || test_z P) (fun k =>
    printf "Please set TOOLS_ACCOUNT_ID, UAT_ACCOUNT_ID, and PROD_ACCOUNT_ID" ;;
    printf "TOOLS_ACCOUNT_ID =" ;;
    printf "UAT_ACCOUNT_ID =" ;;
    printf "PROD_ACCOUNT_ID =" ;;
    exit_ ;; k) ;;
  (* Deploy roles without policies so the ARNs exist when the CDK Stack
     is deployed in parallel *)
  printf "\nDeploying roles to UAT and Prod\n" ;;
  bg roles1_cross_uat ;;
  bg roles1_cfn_uat ;;
  bg roles1_cross_prod ;;
  run roles1_cfn_prod ;;
  (* Deploy Repository CDK Stack *)
  printf "\nDeploying Repository Stack\n" ;;
  run npm_install ;;
  run npm_audit_fix ;;
  run npm_run_build ;;
  run cdk_synth ;;
  run cdk_deploy_RepositoryStack ;;
  (* Deploy Pipeline CDK stack, write output to a file to gather key arn *)
  printf "\nDeploying Cross-Account Deployment Pipeline Stack\n" ;;
  util rm_rf_outputs do_rm_rf ;;
  run_tee cdk_deploy_CrossAccountPipelineStack ;;
  util sed_outputs do_sed ;;
  Util awk_key_arn do_awk (fun r =>
    after_extraction (strip_trailing_newlines (stdout r))).

End Script.

(** The launch numbers of the last role deployment of phase 1 (the one
    in the foreground) and of the pipeline deployment. *)
Definition pid_roles1_cfn_prod := 3.
Definition pid_pipeline := 10.

(** The value [KEY_ARN] gets in a world: extracted from what the
    pipeline deployment printed. *)
Definition key_arn_in (w : world) : string :=
  extract_key_arn (stdout (w pid_pipeline)).

(** All three account identifiers are set (and not empty). *)
Definition accounts_set (env : environ) : Prop :=
  expand (TOOLS_ACCOUNT_ID env) <> EmptyString /\
  expand (UAT_ACCOUNT_ID env) <> EmptyString /\
  expand (PROD_ACCOUNT_ID env) <> EmptyString.

(** Deployment and push commands. *)
Definition is_role_deploy (c : argv) : bool :=
  match c with
  | a :: b :: d :: _ =>
      String.eqb a "aws" && String.eqb b "cloudformation" && String.eqb d "deploy"
  | _ => false
  end.

Definition is_cdk_deploy (c : argv) : bool :=
  match c with
  | a :: b :: rest =>
      (String.eqb a "cdk" && String.eqb b "deploy") ||
      (String.eqb a "npx" && String.eqb b "cdk" &&
       match rest with d :: _ => String.eqb d "deploy" | [] => false end)
  | _ => false
  end.

Definition is_deploy (c : argv) : bool := is_role_deploy c || is_cdk_deploy c.

Definition is_push (c : argv) : bool :=
  match c with
  | a :: b :: _ => String.eqb a "git" && String.eqb b "push"
  | _ => false
  end.

(** The local files once the key has been extracted. *)
Definition files_after_extraction (w : world) : files :=
  {| cdk_output_file := Some (stdout (w pid_pipeline));
     cfn_outputs_file := Some (cfn_outputs (stdout (w pid_pipeline))) |}.

(** What has happened when the key check is reached. *)
Definition trace_before_check (env : environ) (w : world) : list event :=
  [Out "\nDeploying roles to UAT and Prod\n";
   Started 0 true (roles1_cross_uat env);
   Started 1 true (roles1_cfn_uat env);
   Started 2 true (roles1_cross_prod env);
   Started pid_roles1_cfn_prod false (roles1_cfn_prod env);
   Completed pid_roles1_cfn_prod (w pid_roles1_cfn_prod);
   Out "\nDeploying Repository Stack\n";
   Started 4 false npm_install; Completed 4 (w 4);
   Started 5 false npm_audit_fix; Completed 5 (w 5);
   Started 6 false npm_run_build; Completed 6 (w 6);
   Started 7 false cdk_synth; Completed 7 (w 7);
   Started 8 false cdk_deploy_RepositoryStack; Completed 8 (w 8);
   Out "\nDeploying Cross-Account Deployment Pipeline Stack\n";
   Started 9 false rm_rf_outputs; Completed 9 (ok EmptyString);
   Started pid_pipeline false (cdk_deploy_CrossAccountPipelineStack env);
   Completed pid_pipeline (w pid_pipeline);
   Started 11 false sed_outputs;
   Completed 11 {| status := 0; stdout := EmptyString |};
   Started 12 false awk_key_arn;
   Completed 12 {| status := 0;
                   stdout := awk_KeyArn (cfn_outputs (stdout (w pid_pipeline))) |}].

(** The second deployment of the roles. *)
Definition trace_phase2 (env : environ) (w : world) (pid : nat) (K : string)
  : list event :=
  [Out "\nUpdating roles with policies in UAT and Prod\n";
   Started pid true (roles2_cross_uat env K);
   Started (S pid) true (roles2_cfn_uat env K);
   Started (S (S pid)) true (roles2_cfn_prod env K);
   Started (S (S (S pid))) false (roles2_cross_prod env K);
   Completed (S (S (S pid))) (w (S (S (S pid))))].

(** The commands of the script, by phase. *)
Definition phase1_commands (env : environ) : list argv :=
  [roles1_cross_uat env; roles1_cfn_uat env;
   roles1_cross_prod env; roles1_cfn_prod env].

Definition stack_commands (env : environ) : list argv :=
  [npm_install; npm_audit_fix; npm_run_build; cdk_synth;
   cdk_deploy_RepositoryStack; rm_rf_outputs;
   cdk_deploy_CrossAccountPipelineStack env].

Definition extraction_commands : list argv := [sed_outputs; awk_key_arn].

Definition phase2_commands (env : environ) (KEY_ARN : string) : list argv :=
  [roles2_cross_uat env KEY_ARN; roles2_cfn_uat env KEY_ARN;
   roles2_cfn_prod env KEY_ARN; roles2_cross_prod env KEY_ARN].

Definition push_commands (env : environ) : list argv :=
  [git_init; git_branch_main; git_add; git_commit; git_remote_rm;
   git_remote_add env; git_config_remove; git_config_merge; git_push].

(** The value that follows an option in a command line. *)
Fixpoint option_value (opt : string) (c : argv) : string :=
  match c with
  | [] => EmptyString
  | o :: rest =>
      if String.eqb o opt then hd EmptyString rest else option_value opt rest
  end.

(** What a role deployment targets: template, stack name, profile. *)
Definition target (c : argv) : string * string * string :=
  (option_value "--template-file" c,
   option_value "--stack-name" c,
   option_value "--profile" c).

(** The account behind a credentials profile (the prerequisites of the
    script: profiles [pipeline], [uat] and [prod]). *)
Definition account_of_profile (env : environ) (profile : string) : string :=
  if String.eqb profile "uat" then expand (UAT_ACCOUNT_ID env)
  else if String.eqb profile "prod" then expand (PROD_ACCOUNT_ID env)
  else expand (TOOLS_ACCOUNT_ID env).

(** Modelled from the spec: the templates of the two role stacks are not
    part of the sources; by the specification the role a role-stack
    deployment creates has the identifier [arn:...:role/<RoleKindName>],
    determined by the target account and the kind of role (the name of
    the stack), whatever the key. *)
Definition role_identifier (env : environ) (c : argv) : string :=
  "arn:aws:iam::" +:+ account_of_profile env (option_value "--profile" c)
  +:+ ":role/" +:+ option_value "--stack-name" c.

(** Job [pid] has ended successfully somewhere in a log. *)
Definition succeeded (pid : nat) (lg : list event) : Prop :=
  exists r, status r = 0 /\ (In (Completed pid r) lg \/ In (Finished pid r) lg).

(** The barrier after phase 1 as the specification words it: whenever a
    stack deployment is launched, each of the four role deployments
    (launches 0 to 3) has reported success before. *)
Definition phase1_barrier (lg : list event) : Prop :=
  forall l1 pid b c l2,
    lg = l1 ++ Started pid b c :: l2 ->
    is_cdk_deploy c = true ->
    forall p, p < 4 -> succeeded p l1.

(** Strict abort as the specification words it: once a deployment has
    returned a failure, no deployment or push is launched any more. *)
Definition aborts_after_failure (tr : list event) : Prop :=
  forall l1 pid b c r l2,
    tr = l1 ++ Started pid b c :: Completed pid r :: l2 ->
    is_deploy c = true ->
    status r <> 0 ->
    forall c', In c' (launched l2) -> is_deploy c' = false /\ is_push c' = false.

(** A sample environment and worlds. *)
Definition env0 : environ :=
  {| TOOLS_ACCOUNT_ID := Some "111111111111";
     UAT_ACCOUNT_ID := Some "222222222222";
     PROD_ACCOUNT_ID := Some "333333333333" |}.

Definition no_files : files :=
  {| cdk_output_file := None; cfn_outputs_file := None |}.

(** Every command succeeds; the pipeline deployment prints its outputs. *)
Definition all_fine : world :=
  fun pid =>
    if Nat.eqb pid pid_pipeline
    then ok Samples.pipeline_output
    else ok EmptyString.

(** The same, but the last phase-1 role deployment fails. *)
Definition role_deploy_fails : world :=
  fun pid =>
    if Nat.eqb pid pid_roles1_cfn_prod
    then {| status := 255; stdout := "Failed to create/update the stack." |}
    else all_fine pid.

(** The pipeline deployment prints no outputs. *)
Definition no_outputs : world := fun _ => ok EmptyString.

End Bootstrap.

(* ===================================================================== *)
(** ** The CDK constructs the stacks declare *)
(* ===================================================================== *)

Module Cdk.

(** A JavaScript value that is a string or [undefined]. *)
Definition js_string := option string.

(** Truthiness and [a || b]. *)
Definition truthy (v : js_string) : bool :=
  match v with
  | Some s => negb (Text.is_empty s)
  | None => false
  end.

Definition js_or (a b : js_string) : js_string := if truthy a then a else b.

(** How a constructor, or the whole app, ends: it returns what it has
    built, or an exception stops it. *)
Inductive completion (A : Type) : Type :=
| Returns (a : A)
| Throws.
Arguments Returns {A} a.
Arguments Throws {A}.

(** Plain objects such as a build specification. *)
#[local] Unset Elimination Schemes.
Inductive json :=
| JStr (s : string)
| JArr (items : list json)
| JObj (members : list (string * json)).
#[local] Set Elimination Schemes.

(** *** aws-lambda, aws-apigateway, aws-codedeploy *)

Inductive Code := CfnParametersCode.          (* lambda.Code.fromCfnParameters() *)
Inductive Runtime := NODEJS_LATEST.
Inductive LambdaDeploymentConfig := ALL_AT_ONCE.

Record LambdaFunction := {
  fn_id : string;
  functionName : string;
  fn_code : Code;
  handler : string;
  runtime : Runtime;
  environment : gmap string string
}.

Record LambdaRestApi := {
  api_id : string;
  api_handler : string;                 (* the function, by construct id *)
  endpointExportName : string;
  deployOptions_stageName : string;     (* deployOptions.stageName, as given *)
  deploymentStage_stageName : string    (* the stage the API is deployed to *)
}.

(** [new apigateway.LambdaRestApi(scope, id, { handler, endpointExportName,
    deployOptions: { stageName } })]: the construct deploys the API to
    the stage [stageName || 'prod'], so an empty name gives the stage
    [prod]. *)
Definition new_LambdaRestApi (id handler exportName stageName : string)
  : LambdaRestApi :=
  {| api_id := id;
     api_handler := handler;
     endpointExportName := exportName;
     deployOptions_stageName := stageName;
     deploymentStage_stageName :=
       if Text.is_empty stageName then "prod" else stageName |}.

Record Alias := {
  alias_id : string;
  aliasName : string;
  version_of : string                   (* func.currentVersion *)
}.

Record LambdaDeploymentGroup := {
  group_id : string;
  group_alias : string;                 (* the alias, by construct id *)
  deploymentConfig : LambdaDeploymentConfig
}.

(** *** aws-iam, aws-kms, aws-s3, aws-codecommit *)

Record ImportedRole := {                (* iam.Role.fromRoleArn *)
  role_id : string;
  roleArn : string;
  mutable : bool
}.

Inductive Principal :=
| AccountPrincipal (accountId : string)
| RolePrincipal (role : ImportedRole).

Record Key := {
  key_id : string;
  key_alias : string;
  decrypt_grants : list Principal       (* grantDecrypt, in call order *)
}.

Inductive BucketGrant := Put | Read.
Inductive RemovalPolicy := DESTROY.
Inductive BucketEncryption := KMS.

Record Bucket := {
  bucket_id : string;
  bucketName : string;
  removalPolicy : RemovalPolicy;
  encryption : BucketEncryption;
  bucket_key : string;                  (* encryptionKey, by construct id *)
  bucket_grants : list (BucketGrant * Principal)
}.

Record Repository := {                  (* codecommit.Repository.fromRepositoryName *)
  repo_id : string;
  repositoryName : string
}.

Record PolicyStatement := {
  statement_actions : list string;
  statement_resources : list string
}.

(** *** aws-codebuild, aws-codepipeline, aws-codepipeline-actions *)

Inductive BuildImage := AMAZON_LINUX_2_3.

Record PipelineProject := {
  project_id : string;
  buildSpec : json;
  buildImage : BuildImage;
  project_key : string                  (* encryptionKey, by construct id *)
}.

(** [new codepipeline.Artifact(name?)] *)
Definition Artifact := option string.

Inductive CfnCapabilities := ANONYMOUS_IAM.

Inductive Action :=
| CodeCommitSourceAction
    (actionName : string) (repository : string) (output : Artifact)
    (branch : string)
| CodeBuildAction
    (actionName : string) (project : string) (input : Artifact)
    (outputs : list Artifact)
| CloudFormationCreateUpdateStackAction
    (actionName : string)
    (templatePath : Artifact * string)          (* artifact.atPath(file) *)
    (stackName : string)
    (adminPermissions : bool)
    (parameterOverrides : string * Artifact)    (* stack.lambdaCode.assign(artifact.s3Location) *)
    (extraInputs : list Artifact)
    (cfnCapabilities : list CfnCapabilities)
    (role : string) (deploymentRole : string).  (* by construct id *)

Record Stage := {
  stageName : string;
  actions : list Action
}.

Record Pipeline := {
  pipeline_id : string;
  pipelineName : string;
  artifactBucket : string;              (* by construct id *)
  stages : list Stage;
  role_policy : list PolicyStatement    (* addToRolePolicy *)
}.

(** *** core *)

Inductive OutputValue := KeyArnOf (key : string).   (* key.keyArn *)

Record CfnOutput := {
  output_id : string;
  output_value : OutputValue;
  exportName : string
}.

End Cdk.

(* ===================================================================== *)
(** ** [lib/application-stack.ts] *)
(* ===================================================================== *)

Module ApplicationStack.
Import Cdk.

Record ApplicationStackProps := { props_stageName : string }.

(** What the constructor declares inside the stack. *)
Record Resources := {
  func : LambdaFunction;
  restApi : LambdaRestApi;
  alias : Alias;
  deploymentGroup : LambdaDeploymentGroup
}.

Record ApplicationStack := {
  stack_id : string;
  lambdaCode : Code;
  resources : Resources
}.

Definition new (id : string) (props : ApplicationStackProps) : ApplicationStack :=
  let lambdaCode := CfnParametersCode in
  let func :=
    {| fn_id := "Lambda";
       functionName := "HelloLambda";
       fn_code := lambdaCode;
       handler := "index.handler";
       runtime := NODEJS_LATEST;
       environment := {[ "STAGE_NAME" := props_stageName props ]} |} in
  let api :=
    new_LambdaRestApi "HelloLambdaRestApi" (fn_id func)
      "HelloLambdaRestApiEmdpoint" (props_stageName props) in
  let version := fn_id func in
  let alias :=
    {| alias_id := "LambdaAlias";
       aliasName := props_stageName props;
       version_of := version |} in
  let group :=
    {| group_id := "DeploymentGroup";
       group_alias := alias_id alias;
       deploymentConfig := ALL_AT_ONCE |} in
  {| stack_id := id;
     lambdaCode := lambdaCode;
     resources := {| func := func; restApi := api; alias := alias;
                     deploymentGroup := group |} |}.

(** Putting another stage name into declared resources: the three places
    that carry it. *)
Definition with_stage_name (s : string) (r : Resources) : Resources :=
  {| func := {| fn_id := fn_id (func r);
                functionName := functionName (func r);
                fn_code := fn_code (func r);
                handler := handler (func r);
                runtime := runtime (func r);
                environment := <[ "STAGE_NAME" := s ]> (environment (func r)) |};
     restApi := new_LambdaRestApi (api_id (restApi r)) (api_handler (restApi r))
                  (endpointExportName (restApi r)) s;
     alias := {| alias_id := alias_id (alias r);
                 aliasName := s;
                 version_of := version_of (alias r) |};
     deploymentGroup := deploymentGroup r |}.

End ApplicationStack.

(* ===================================================================== *)
(** ** [lib/pipeline-stack.ts], in its two variants *)
(* ===================================================================== *)

Module PipelineStack.
Import Cdk.

Record PipelineStackProps := {
  uatApplicationStack : ApplicationStack.ApplicationStack;
  uatAccountId : string;
  prodApplicationStack : ApplicationStack.ApplicationStack;
  prodAccountId : string
}.

(** What the constructor declares. *)
Record PipelineStack := {
  pstack_id : string;
  repository : Repository;
  uatCloudFormationRole : ImportedRole;
  uatCodePipelineRole : ImportedRole;
  prodCloudFormationRole : ImportedRole;
  prodCodeDeployRole : ImportedRole;
  key : Key;
  bucket : Bucket;
  cdkBuild : PipelineProject;
  lambdaBuild : PipelineProject;
  pipeline : Pipeline;
  outputs : list CfnOutput
}.

(** The variant written against [aws-cdk-lib]; [account] is
    [this.account]. *)
Definition new_v2 (id : string) (account : string) (props : PipelineStackProps)
  : PipelineStack :=
  let repository :=
    {| repo_id := "CodeCommitRepo";
       repositoryName := "repo-" +:+ account |} in

  (* Resolve ARNs of cross-account roles for the UAT account *)
  let uatCloudFormationRole :=
    {| role_id := "UatDeploymentRole";
       roleArn := "arn:aws:iam::" +:+ uatAccountId props
                  +:+ ":role/CloudFormationDeploymentRole";
       mutable := false |} in
  let uatCodePipelineRole :=
    {| role_id := "UatCrossAccountRole";
       roleArn := "arn:aws:iam::" +:+ uatAccountId props
                  +:+ ":role/CodePipelineCrossAccountRole";
       mutable := false |} in

  (* Resolve ARNS of cross-account roles for the Prod account *)
  let prodCloudFormationRole :=
    {| role_id := "ProdDeploymentRole";
       roleArn := "arn:aws:iam::" +:+ prodAccountId props
                  +:+ ":role/CloudFormationDeploymentRole";
       mutable := false |} in
  let prodCodeDeployRole :=
    {| role_id := "ProdCrossAccountRole";
       roleArn := "arn:aws:iam::" +:+ prodAccountId props
                  +:+ ":role/CodePipelineCrossAccountRole";
       mutable := false |} in

  (* Resolve root Principal ARNs for both deployment accounts *)
  let uatAccountRootPrincipal := AccountPrincipal (uatAccountId props) in
  let prodAccountRootPrincipal := AccountPrincipal (prodAccountId props) in

  (* Create KMS key and update policy with cross-account access *)
  let key :=
    {| key_id := "ArtifactKey";
       key_alias := "key/pipeline-artifact-key";
       decrypt_grants :=
         [uatAccountRootPrincipal;
          RolePrincipal uatCodePipelineRole;
          prodAccountRootPrincipal;
          RolePrincipal prodCodeDeployRole] |} in

  (* Create S3 bucket with target account cross-account access *)
  let artifactBucket :=
    {| bucket_id := "ArtifactBucket";
       bucketName := "artifact-bucket-" +:+ account;
       removalPolicy := DESTROY;
       encryption := KMS;
       bucket_key := key_id key;
       bucket_grants :=
         [(Put, uatAccountRootPrincipal);
          (Read, uatAccountRootPrincipal);
          (Put, prodAccountRootPrincipal);
          (Read, prodAccountRootPrincipal)] |} in

  (* CDK build definition *)
  let cdkBuild :=
    {| project_id := "CdkBuild";
       buildSpec :=
         JObj [("version", JStr "0.2");
               ("phases",
                JObj [("install",
                       JObj [("commands", JArr [JStr "npm install"])]);
                      ("build",
                       JObj [("commands",
                              JArr [JStr "npm run build";
                                    JStr "npm run cdk synth -- -o dist"])])]);
               ("artifacts",
                JObj [("base-directory", JStr "dist");
                      ("files", JArr [JStr "*ApplicationStack.template.json"])])];
       buildImage := AMAZON_LINUX_2_3;
       project_key := key_id key |} in

  (* Lambda build definition *)
  let lambdaBuild :=
    {| project_id := "LambdaBuild";
       buildSpec :=
         JObj [("version", JStr "0.2");
               ("phases",
                JObj [("install",
                       JObj [("commands", JArr [JStr "cd app"; JStr "npm install"])]);
                      ("build",
                       JObj [("commands", JStr "npm run build")])]);
               ("artifacts",
                JObj [("base-directory", JStr "app");
                      ("files", JArr [JStr "index.js"; JStr "node_modules/**/*"])])];
       buildImage := AMAZON_LINUX_2_3;
       project_key := key_id key |} in

  (* Define pipeline stage output artifacts *)
  let sourceOutput : Artifact := None in
  let cdkBuildOutput : Artifact := Some "CdkBuildOutput" in
  let lambdaBuildOutput : Artifact := Some "LambdaBuildOutput" in

  (* Pipeline definition *)
  let pipeline :=
    {| pipeline_id := "Pipeline";
       pipelineName := "CrossAccountPipeline";
       artifactBucket := bucket_id artifactBucket;
       stages :=
         [{| stageName := "Source";
             actions :=
               [CodeCommitSourceAction
                  "CodeCommit_Source" (repo_id repository) sourceOutput "main"] |};
          {| stageName := "Build";
             actions :=
               [CodeBuildAction
                  "Application_Build" (project_id lambdaBuild) sourceOutput
                  [lambdaBuildOutput];
                CodeBuildAction
                  "CDK_Synth" (project_id cdkBuild) sourceOutput
                  [cdkBuildOutput]] |};
          {| stageName := "Deploy_Uat";
             actions :=
               [CloudFormationCreateUpdateStackAction
                  "Deploy"
                  (cdkBuildOutput, "UatApplicationStack.template.json")
                  "UatApplicationDeploymentStack"
                  false
                  (ApplicationStack.stack_id (uatApplicationStack props),
                   lambdaBuildOutput)
                  [lambdaBuildOutput]
                  [ANONYMOUS_IAM]
                  (role_id uatCodePipelineRole)
                  (role_id uatCloudFormationRole)] |};
          {| stageName := "Deploy_Prod";
             actions :=
               [CloudFormationCreateUpdateStackAction
                  "Deploy"
                  (cdkBuildOutput, "ProdApplicationStack.template.json")
                  "ProdApplicationDeploymentStack"
                  false
                  (ApplicationStack.stack_id (prodApplicationStack props),
                   lambdaBuildOutput)
                  [lambdaBuildOutput]
                  [ANONYMOUS_IAM]
                  (role_id prodCodeDeployRole)
                  (role_id prodCloudFormationRole)] |}];
       (* Add the target accounts to the pipeline policy *)
       role_policy :=
         [{| statement_actions := ["sts:AssumeRole"];
             statement_resources :=
               ["arn:aws:iam::" +:+ uatAccountId props +:+ ":role/*";
                "arn:aws:iam::" +:+ prodAccountId props +:+ ":role/*"] |}]
    |} in

  {| pstack_id := id;
     repository := repository;
     uatCloudFormationRole := uatCloudFormationRole;
     uatCodePipelineRole := uatCodePipelineRole;
     prodCloudFormationRole := prodCloudFormationRole;
     prodCodeDeployRole := prodCodeDeployRole;
     key := key;
     bucket := artifactBucket;
     cdkBuild := cdkBuild;
     lambdaBuild := lambdaBuild;
     pipeline := pipeline;
     (* Publish the KMS Key ARN as an output *)
     outputs :=
       [{| output_id := "ArtifactBucketEncryptionKeyArn";
           output_value := KeyArnOf (key_id key);
           exportName := "ArtifactBucketEncryptionKey" |}] |}.

(** The variant written against the [@aws-cdk/*] packages. *)
Definition new_v1 (id : string) (account : string) (props : PipelineStackProps)
  : PipelineStack :=
  let repository :=
    {| repo_id := "CodeCommitRepo";
       repositoryName := "repo-" +:+ account |} in

  (* Resolve ARNs of cross-account roles for the UAT account *)
  let uatCloudFormationRole :=
    {| role_id := "UatDeploymentRole";
       roleArn := "arn:aws:iam::" +:+ uatAccountId props
                  +:+ ":role/CloudFormationDeploymentRole";
       mutable := false |} in
  let uatCodePipelineRole :=
    {| role_id := "UatCrossAccountRole";
       roleArn := "arn:aws:iam::" +:+ uatAccountId props
                  +:+ ":role/CodePipelineCrossAccountRole";
       mutable := false |} in

  (* Resolve ARNS of cross-account roles for the Prod account *)
  let prodCloudFormationRole :=
    {| role_id := "ProdDeploymentRole";
       roleArn := "arn:aws:iam::" +:+ prodAccountId props
                  +:+ ":role/CloudFormationDeploymentRole";
       mutable := false |} in
  let prodCodeDeployRole :=
    {| role_id := "ProdCrossAccountRole";
       roleArn := "arn:aws:iam::" +:+ prodAccountId props
                  +:+ ":role/CodePipelineCrossAccountRole";
       mutable := false |} in

  (* Resolve root Principal ARNs for both deployment accounts *)
  let uatAccountRootPrincipal := AccountPrincipal (uatAccountId props) in
  let prodAccountRootPrincipal := AccountPrincipal (prodAccountId props) in

  (* Create KMS key and update policy with cross-account access *)
  let key :=
    {| key_id := "ArtifactKey";
       key_alias := "key/pipeline-artifact-key";
       decrypt_grants :=
         [uatAccountRootPrincipal;
          RolePrincipal uatCodePipelineRole;
          prodAccountRootPrincipal;
          RolePrincipal prodCodeDeployRole] |} in

  (* Create S3 bucket with target account cross-account access *)
  let artifactBucket :=
    {| bucket_id := "ArtifactBucket";
       bucketName := "artifact-bucket-" +:+ account;
       removalPolicy := DESTROY;
       encryption := KMS;
       bucket_key := key_id key;
       bucket_grants :=
         [(Put, uatAccountRootPrincipal);
          (Read, uatAccountRootPrincipal);
          (Put, prodAccountRootPrincipal);
          (Read, prodAccountRootPrincipal)] |} in

  (* CDK build definition *)
  let cdkBuild :=
    {| project_id := "CdkBuild";
       buildSpec :=
         JObj [("version", JStr "0.2");
               ("phases",
                JObj [("install",
                       JObj [("commands", JArr [JStr "npm install"])]);
                      ("build",
                       JObj [("commands",
                              JArr [JStr "npm run build";
                                    JStr "npm run cdk synth -- -o dist"])])]);
               ("artifacts",
                JObj [("base-directory", JStr "dist");
                      ("files", JArr [JStr "*ApplicationStack.template.json"])])];
       buildImage := AMAZON_LINUX_2_3;
       project_key := key_id key |} in

  (* Lambda build definition *)
  let lambdaBuild :=
    {| project_id := "LambdaBuild";
       buildSpec :=
         JObj [("version", JStr "0.2");
               ("phases",
                JObj [("install",
                       JObj [("commands", JArr [JStr "cd app"; JStr "npm install"])]);
                      ("build",
                       JObj [("commands", JStr "npm run build")])]);
               ("artifacts",
                JObj [("base-directory", JStr "app");
                      ("files", JArr [JStr "index.js"; JStr "node_modules/**/*"])])];
       buildImage := AMAZON_LINUX_2_3;
       project_key := key_id key |} in

  (* Define pipeline stage output artifacts *)
  let sourceOutput : Artifact := None in
  let cdkBuildOutput : Artifact := Some "CdkBuildOutput" in
  let lambdaBuildOutput : Artifact := Some "LambdaBuildOutput" in

  (* Pipeline definition *)
  let pipeline :=
    {| pipeline_id := "Pipeline";
       pipelineName := "CrossAccountPipeline";
       artifactBucket := bucket_id artifactBucket;
       stages :=
         [{| stageName := "Source";
             actions :=
               [CodeCommitSourceAction
                  "CodeCommit_Source" (repo_id repository) sourceOutput "main"] |};
          {| stageName := "Build";
             actions :=
               [CodeBuildAction
                  "Application_Build" (project_id lambdaBuild) sourceOutput
                  [lambdaBuildOutput];
                CodeBuildAction
                  "CDK_Synth" (project_id cdkBuild) sourceOutput
                  [cdkBuildOutput]] |};
          {| stageName := "Deploy_Uat";
             actions :=
               [CloudFormationCreateUpdateStackAction
                  "Deploy"
                  (cdkBuildOutput, "UatApplicationStack.template.json")
                  "UatApplicationDeploymentStack"
                  true
                  (ApplicationStack.stack_id (uatApplicationStack props),
                   lambdaBuildOutput)
                  [lambdaBuildOutput]
                  [ANONYMOUS_IAM]
                  (role_id uatCodePipelineRole)
                  (role_id uatCloudFormationRole)] |};
          {| stageName := "Deploy_Prod";
             actions :=
               [CloudFormationCreateUpdateStackAction
                  "Deploy"
                  (cdkBuildOutput, "ProdApplicationStack.template.json")
                  "ProdApplicationDeploymentStack"
                  true
                  (ApplicationStack.stack_id (prodApplicationStack props),
                   lambdaBuildOutput)
                  [lambdaBuildOutput]
                  [ANONYMOUS_IAM]
                  (role_id prodCodeDeployRole)
                  (role_id prodCloudFormationRole)] |}];
       (* Add the target accounts to the pipeline policy *)
       role_policy :=
         [{| statement_actions := ["sts:AssumeRole"];
             statement_resources :=
               ["arn:aws:iam::" +:+ uatAccountId props +:+ ":role/*";
                "arn:aws:iam::" +:+ prodAccountId props +:+ ":role/*"] |}]
    |} in

  {| pstack_id := id;
     repository := repository;
     uatCloudFormationRole := uatCloudFormationRole;
     uatCodePipelineRole := uatCodePipelineRole;
     prodCloudFormationRole := prodCloudFormationRole;
     prodCodeDeployRole := prodCodeDeployRole;
     key := key;
     bucket := artifactBucket;
     cdkBuild := cdkBuild;
     lambdaBuild := lambdaBuild;
     pipeline := pipeline;
     (* Publish the KMS Key ARN as an output *)
     outputs :=
       [{| output_id := "ArtifactBucketEncryptionKeyArn";
           output_value := KeyArnOf (key_id key);
           exportName := "ArtifactBucketEncryptionKey" |}] |}.

(** The constructors when JavaScript runs them. The interface types both
    account identifiers [string], but the values a caller computes are
    not checked against it: either may be [undefined]. The template
    literals of the [fromRoleArn] calls accept that; the first
    [new iam.AccountPrincipal] that receives a value that is not a
    string throws, and nothing of the stack is left. *)
Definition instantiate_v2 (id : string) (account : string)
    (uatApplicationStack : ApplicationStack.ApplicationStack)
    (uatAccountId : js_string)
    (prodApplicationStack : ApplicationStack.ApplicationStack)
    (prodAccountId : js_string) : completion PipelineStack :=
  match uatAccountId, prodAccountId with
  | Some uat, Some prod =>
      Returns (new_v2 id account
                 {| uatApplicationStack := uatApplicationStack;
                    uatAccountId := uat;
                    prodApplicationStack := prodApplicationStack;
                    prodAccountId := prod |})
  | _, _ => Throws
  end.

Definition instantiate_v1 (id : string) (account : string)
    (uatApplicationStack : ApplicationStack.ApplicationStack)
    (uatAccountId : js_string)
    (prodApplicationStack : ApplicationStack.ApplicationStack)
    (prodAccountId : js_string) : completion PipelineStack :=
  match uatAccountId, prodAccountId with
  | Some uat, Some prod =>
      Returns (new_v1 id account
                 {| uatApplicationStack := uatApplicationStack;
                    uatAccountId := uat;
                    prodApplicationStack := prodApplicationStack;
                    prodAccountId := prod |})
  | _, _ => Throws
  end.

(** Setting the [adminPermissions] flag of the CloudFormation deploy
    actions of the stages [Deploy_Uat] and [Deploy_Prod], everything else
    left as it is. *)
Definition action_with_admin (b : bool) (a : Action) : Action :=
  match a with
  | CloudFormationCreateUpdateStackAction n t s _ p e c r d =>
      CloudFormationCreateUpdateStackAction n t s b p e c r d
  | _ => a
  end.

Definition stage_with_admin (b : bool) (s : Stage) : Stage :=
  if String.eqb (stageName s) "Deploy_Uat" || String.eqb (stageName s) "Deploy_Prod"
  then {| stageName := stageName s;
          actions := map (action_with_admin b) (actions s) |}
  else s.

Definition with_adminPermissions (b : bool) (st : PipelineStack) : PipelineStack :=
  {| pstack_id := pstack_id st;
     repository := repository st;
     uatCloudFormationRole := uatCloudFormationRole st;
     uatCodePipelineRole := uatCodePipelineRole st;
     prodCloudFormationRole := prodCloudFormationRole st;
     prodCodeDeployRole := prodCodeDeployRole st;
     key := key st;
     bucket := bucket st;
     cdkBuild := cdkBuild st;
     lambdaBuild := lambdaBuild st;
     pipeline :=
       {| pipeline_id := pipeline_id (pipeline st);
          pipelineName := pipelineName (pipeline st);
          artifactBucket := artifactBucket (pipeline st);
          stages := map (stage_with_admin b) (stages (pipeline st));
          role_policy := role_policy (pipeline st) |};
     outputs := outputs st |}.

(** The [adminPermissions] flags of the deploy actions of a stage. *)
Definition admin_flags_of_action (a : Action) : list bool :=
  match a with
  | CloudFormationCreateUpdateStackAction _ _ _ b _ _ _ _ _ => [b]
  | _ => []
  end.

Definition admin_flags (name : string) (st : PipelineStack) : list bool :=
  flat_map (fun s => if String.eqb (stageName s) name
                     then flat_map admin_flags_of_action (actions s)
                     else [])
           (stages (pipeline st)).

(** The claim that the stack has an output of a given name, publishing
    the ARN of its key. *)
Definition publishes_key_arn_as (name : string) (st : PipelineStack) : Prop :=
  exists o, In o (outputs st) /\
            output_value o = KeyArnOf (key_id (key st)) /\
            (output_id o = name \/ exportName o = name).

End PipelineStack.

(* ===================================================================== *)
(** ** [bin/cross-account-pipeline.ts] *)
(* ===================================================================== *)

Module App.
Import Cdk.

(** What the app instantiates. The class [RepositoryStack] is declared in
    a file that is not among the sources; the app only names it. *)
Record Assembly := {
  repositoryStack : string;
  uatApplicationStack : ApplicationStack.ApplicationStack;
  prodApplicationStack : ApplicationStack.ApplicationStack;
  pipelineStack : PipelineStack.PipelineStack
}.

Section Synth.
(** The context ([--context key=value], [cdk.json]) and [process.env]. *)
Variable context : gmap string string.
Variable process_env : gmap string string.
(** The account the pipeline stack resolves [this.account] to. *)
Variable account : string.

Definition tryGetContext (k : string) : js_string := context !! k.

Definition uatAccountId : js_string :=
  js_or (js_or (tryGetContext "uat-account") (process_env !! "CDK_INTEG_ACCOUNT"))
        (process_env !! "CDK_DEFAULT_ACCOUNT").

Definition prodAccountId : js_string :=
  js_or (js_or (tryGetContext "prod-account") (process_env !! "CDK_INTEG_ACCOUNT"))
        (process_env !! "CDK_DEFAULT_ACCOUNT").

Definition app : completion Assembly :=
  let uatApplicationStack :=
    ApplicationStack.new "UatApplicationStack"
      {| ApplicationStack.props_stageName := "uat" |} in
  let prodApplicationStack :=
    ApplicationStack.new "ProdApplicationStack"
      {| ApplicationStack.props_stageName := "prod" |} in
  match PipelineStack.instantiate_v2 "CrossAccountPipelineStack" account
          uatApplicationStack uatAccountId
          prodApplicationStack prodAccountId with
  | Returns pipelineStack =>
      Returns {| repositoryStack := "RepositoryStack";
                 uatApplicationStack := uatApplicationStack;
                 prodApplicationStack := prodApplicationStack;
                 pipelineStack := pipelineStack |}
  | Throws => Throws
  end.

End Synth.

(** What the app has instantiated when it returns, the two account
    identifiers being [uat] and [prod]. *)
Definition assembly (account uat prod : string) : Assembly :=
  let uatApplicationStack :=
    ApplicationStack.new "UatApplicationStack"
      {| ApplicationStack.props_stageName := "uat" |} in
  let prodApplicationStack :=
    ApplicationStack.new "ProdApplicationStack"
      {| ApplicationStack.props_stageName := "prod" |} in
  {| repositoryStack := "RepositoryStack";
     uatApplicationStack := uatApplicationStack;
     prodApplicationStack := prodApplicationStack;
     pipelineStack :=
       PipelineStack.new_v2 "CrossAccountPipelineStack" account
         {| PipelineStack.uatApplicationStack := uatApplicationStack;
            PipelineStack.uatAccountId := uat;
            PipelineStack.prodApplicationStack := prodApplicationStack;
            PipelineStack.prodAccountId := prod |} |}.

(** A synthesis as the bootstrap script runs it, and one without the two
    context values. *)
Definition bootstrap_context : gmap string string :=
  {[ "prod-account" := "333333333333"; "uat-account" := "222222222222" ]}.

Definition cli_env : gmap string string :=
  {[ "CDK_DEFAULT_ACCOUNT" := "111111111111"; "CDK_DEFAULT_REGION" := "us-west-2" ]}.

End App.

(* ===================================================================== *)
(** ** The teardown script *)
(* ===================================================================== *)

Module Teardown.
Import Text Shell.
Local Open Scope sh_scope.

Section Script.
Variable env : Bootstrap.environ.

Let T := expand (Bootstrap.TOOLS_ACCOUNT_ID env).

(** Delete CloudFormation deployments in UAT and Prod accts *)
Definition delete_uat_application : argv :=
  ["aws"; "cloudformation"; "delete-stack";
   "--stack-name"; "UatApplicationDeploymentStack"; "--profile"; "uat"].

Definition delete_prod_application : argv :=
  ["aws"; "cloudformation"; "delete-stack";
   "--stack-name"; "ProdApplicationDeploymentStack"; "--profile"; "prod"].

(** Empty artifact bucket in pipeline acct *)
Definition s3_rm_artifacts : argv :=
  ["aws"; "s3"; "rm"] ++ word ("s3://artifact-bucket-" +:+ T)
  ++ ["--recursive"; "--profile"; "pipeline"].

(** Destroy Cross-Account Pipeline *)
Definition cdk_destroy_pipeline : argv :=
  ["cdk"; "destroy"; "CrossAccountPipelineStack"; "--profile"; "pipeline"].

(** Delete Cross-Account roles *)
Definition delete_cross_uat : argv :=
  ["aws"; "cloudformation"; "delete-stack";
   "--stack-name"; "CodePipelineCrossAccountRole"; "--profile"; "uat"].

Definition delete_cross_prod : argv :=
  ["aws"; "cloudformation"; "delete-stack";
   "--stack-name"; "CodePipelineCrossAccountRole"; "--profile"; "prod"].

Definition delete_cfn_uat : argv :=
  ["aws"; "cloudformation"; "delete-stack";
   "--stack-name"; "CloudFormationDeploymentRole"; "--profile"; "uat"].

Definition delete_cfn_prod : argv :=
  ["aws"; "cloudformation"; "delete-stack";
   "--stack-name"; "CloudFormationDeploymentRole"; "--profile"; "prod"].

(** Delete repository stack *)
Definition cdk_destroy_repository : argv :=
  ["cdk"; "destroy"; "RepositoryStack"; "--profile"; "pipeline"].

Definition teardown : sh :=
  (* If prerequisite account values aren't set, exit *)
  when (test_z T) (fun k =>
    printf "Please set TOOLS_ACCOUNT_ID, UAT_ACCOUNT_ID, and PROD_ACCOUNT_ID" ;;
    printf "TOOLS_ACCOUNT_ID =" ;;
    exit_ ;; k) ;;
  bg delete_uat_application ;;
  bg delete_prod_application ;;
  run s3_rm_artifacts ;;
  run cdk_destroy_pipeline ;;
  bg delete_cross_uat ;;
  bg delete_cross_prod ;;
  bg delete_cfn_uat ;;
  bg delete_cfn_prod ;;
  run cdk_destroy_repository ;;
  Halt.

End Script.

(** The commands of the teardown, in the order of the script. *)
Definition teardown_commands (env : Bootstrap.environ) : list argv :=
  [delete_uat_application; delete_prod_application;
   s3_rm_artifacts env; cdk_destroy_pipeline;
   delete_cross_uat; delete_cross_prod; delete_cfn_uat; delete_cfn_prod;
   cdk_destroy_repository].

Definition role_deletions : list argv :=
  [delete_cross_uat; delete_cross_prod; delete_cfn_uat; delete_cfn_prod].

(** What happens, in script order, once the account check has passed. *)
Definition teardown_trace (env : Bootstrap.environ) (w : world) : list event :=
  [Started 0 true delete_uat_application;
   Started 1 true delete_prod_application;
   Started 2 false (s3_rm_artifacts env); Completed 2 (w 2);
   Started 3 false cdk_destroy_pipeline; Completed 3 (w 3);
   Started 4 true delete_cross_uat;
   Started 5 true delete_cross_prod;
   Started 6 true delete_cfn_uat;
   Started 7 true delete_cfn_prod;
   Started 8 false cdk_destroy_repository; Completed 8 (w 8)].



End Teardown.

(* ===================================================================== *)
(** ** Reading the declared pipeline: stacks, roles, artifacts, patterns *)
(* ===================================================================== *)

Module Wiring.
Import Text Cdk.

(** A pattern with wildcards, as in the resources of a policy statement
    and in the file lists of a build specification: [*] stands for any
    run of characters, [?] for any one character. *)
Fixpoint glob (pat : string) : string -> bool :=
  match pat with
  | EmptyString => is_empty
  | String c pat' =>
      if Ascii.eqb c "*"%char then
        fix star (s : string) : bool :=
          glob pat' s ||
          match s with
          | EmptyString => false
          | String _ s' => star s'
          end
      else
        fun s =>
          match s with
          | EmptyString => false
          | String d s' => (Ascii.eqb c "?"%char || Ascii.eqb c d) && glob pat' s'
          end
  end.

(** All the values given to an option that may be repeated. *)
Fixpoint option_values (opt : string) (c : Shell.argv) : list string :=
  match c with
  | [] => []
  | o :: rest =>
      (if String.eqb o opt
       then match rest with v :: _ => [v] | [] => [] end
       else [])
      ++ option_values opt rest
  end.

Section Stack.
Variable st : PipelineStack.PipelineStack.

Definition all_actions : list Action :=
  flat_map actions (stages (PipelineStack.pipeline st)).


(** For each deploy action: the template file it reads and the
    application stack whose code parameters it assigns. *)
Definition deploy_templates : list (string * string) :=
  flat_map (fun a => match a with
                     | CloudFormationCreateUpdateStackAction _ t _ _ p _ _ _ _ =>
                         [(snd t, fst p)]
                     | _ => []
                     end) all_actions.

(** The roles the stack imports, and the ones its actions name. *)
Definition imported_roles : list ImportedRole :=
  [PipelineStack.uatCloudFormationRole st; PipelineStack.uatCodePipelineRole st;
   PipelineStack.prodCloudFormationRole st; PipelineStack.prodCodeDeployRole st].

Definition role_by_id (id : string) : option ImportedRole :=
  List.find (fun r => String.eqb (role_id r) id) imported_roles.

Definition assumed_role_ids : list string :=
  flat_map (fun a => match a with
                     | CloudFormationCreateUpdateStackAction _ _ _ _ _ _ _ r d => [r; d]
                     | _ => []
                     end) all_actions.

(** The policy added to the pipeline's role lets it assume a role. *)
Definition may_assume (arn : string) : Prop :=
  exists stmt pat,
    In stmt (role_policy (PipelineStack.pipeline st)) /\
    In "sts:AssumeRole" (statement_actions stmt) /\
    In pat (statement_resources stmt) /\
    glob pat arn = true.

End Stack.

(** *** Artifacts *)

Definition artifact_eqb (a b : Artifact) : bool :=
  match a, b with
  | Some x, Some y => String.eqb x y
  | None, None => true
  | _, _ => false
  end.

Definition action_inputs (a : Action) : list Artifact :=
  match a with
  | CodeCommitSourceAction _ _ _ _ => []
  | CodeBuildAction _ _ i _ => [i]
  | CloudFormationCreateUpdateStackAction _ t _ _ p e _ _ _ => fst t :: snd p :: e
  end.

Definition action_outputs (a : Action) : list Artifact :=
  match a with
  | CodeCommitSourceAction _ _ o _ => [o]
  | CodeBuildAction _ _ _ os => os
  | CloudFormationCreateUpdateStackAction _ _ _ _ _ _ _ _ _ => []
  end.

(** Every action reads only artifacts that an earlier stage has produced. *)
Fixpoint artifacts_flow (available : list Artifact) (ss : list Stage) : bool :=
  match ss with
  | [] => true
  | s :: ss' =>
      forallb (fun a => forallb (fun i => existsb (artifact_eqb i) available)
                                (action_inputs a))
              (actions s)
      && artifacts_flow (available ++ flat_map action_outputs (actions s)) ss'
  end.

(** The artifact whose location a deploy action puts into the parameter
    overrides is among its inputs (template artifact or extra inputs). *)
Definition overrides_are_inputs (a : Action) : bool :=
  match a with
  | CloudFormationCreateUpdateStackAction _ t _ _ p e _ _ _ =>
      existsb (artifact_eqb (snd p)) (fst t :: e)
  | _ => true
  end.

(** *** Build specifications *)

Definition member (k : string) (j : json) : option json :=
  match j with
  | JObj ms => option_map snd (List.find (fun m => String.eqb (fst m) k) ms)
  | _ => None
  end.

Definition strings_of (j : json) : list string :=
  match j with
  | JArr items =>
      flat_map (fun i => match i with JStr s => [s] | _ => [] end) items
  | JStr s => [s]
  | JObj _ => []
  end.

(** [artifacts.files] of a project's build specification. *)
Definition artifact_files (p : PipelineProject) : list string :=
  match member "artifacts" (buildSpec p) with
  | Some a => match member "files" a with
              | Some f => strings_of f
              | None => []
              end
  | None => []
  end.

End Wiring.

(* ===================================================================== *)
(** ** The [&&] lists of the bootstrap, command by command *)
(* ===================================================================== *)

Module Chains.
Import Text Shell Bootstrap.

(** How many commands of an [&&] list are launched: up to and including
    the first one that fails. *)
Fixpoint and_list_ran (w : world) (pid : nat) (cs : list argv) : nat :=
  match cs with
  | [] => 0
  | _ :: cs' =>
      S (if Nat.eqb (status (w pid)) 0 then and_list_ran w (S pid) cs' else 0)
  end.

(** What an [&&] list leaves in the trace. *)
Fixpoint and_list_trace (w : world) (pid : nat) (cs : list argv) : list event :=
  match cs with
  | [] => []
  | c :: cs' =>
      Started pid false c :: Completed pid (w pid)
      :: (if Nat.eqb (status (w pid)) 0 then and_list_trace w (S pid) cs' else [])
  end.

(** The two lists of the script. *)
Definition commit_chain : list argv :=
  [git_init; git_branch_main; git_add; git_commit; git_remote_rm].

Definition push_chain : list argv :=
  [git_config_remove; git_config_merge; git_push].

(** The launch number of the first command after the phase-2 role
    deployments, and that of [git config main.remove origin], which
    depends on how far the first list got. *)
Definition pid_commit : nat := 17.

Definition pid_config (w : world) : nat :=
  S (pid_commit + and_list_ran w pid_commit commit_chain).

End Chains.
(** *** Facts about lines, fields and the two filters *)

Module TextFacts.
Import Text.

Lemma append_cons x (a b : string) : String x a +:+ b = String x (a +:+ b).
Proof. reflexivity. Qed.

Lemma append_assoc (a b c : string) : (a +:+ b) +:+ c = a +:+ (b +:+ c).
Proof.
  induction a as [|x a IH]; [reflexivity|].
  rewrite !append_cons, IH. reflexivity.
Qed.

Lemma no_blank_no_LF s : no_blank s -> no_LF s.
Proof.
  unfold no_blank, no_LF. induction s as [|c s IH]; simpl; [easy|].
  intros H. apply andb_true_iff in H as [Hc Hs].
  rewrite (IH Hs), andb_true_r.
  unfold is_blank in Hc. rewrite !negb_orb in Hc.
  apply andb_true_iff in Hc as [_ Hc]. exact Hc.
Qed.

Lemma lines_app_LF l rest :
  no_LF l -> lines (l +:+ String LF rest) = l :: lines rest.
Proof.
  unfold no_LF. induction l as [|c l IH]; simpl; intros H.
  - reflexivity.
  - apply andb_true_iff in H as [Hc Hl].
    apply negb_true_iff in Hc. rewrite Hc.
    rewrite (IH Hl). reflexivity.
Qed.

Lemma lines_unlines ls : Forall no_LF ls -> lines (unlines ls) = ls.
Proof.
  induction 1 as [|l ls Hl _ IH]; simpl; [reflexivity|].
  rewrite (lines_app_LF _ _ Hl), IH. reflexivity.
Qed.

Lemma lines_no_LF s : Forall no_LF (lines s).
Proof.
  induction s as [|c s IH]; simpl; [constructor|].
  destruct (Ascii.eqb c LF) eqn:E.
  - constructor; [reflexivity | exact IH].
  - destruct (lines s) as [|l ls]; constructor.
    + unfold no_LF. simpl. rewrite E. reflexivity.
    + constructor.
    + inversion IH; subst. unfold no_LF in *. simpl. rewrite E. simpl. assumption.
    + inversion IH; assumption.
Qed.

(** Every field is free of blanks, hence of newlines. *)
Lemma fields_no_blank s : Forall no_blank (fields s).
Proof.
  induction s as [|c s IH]; simpl; [constructor|].
  destruct (is_blank c) eqn:Ec; [exact IH|].
  assert (Hc : no_blank (String c EmptyString)).
  { unfold no_blank. simpl. rewrite Ec. reflexivity. }
  destruct s as [|c' s']; [repeat constructor; exact Hc|].
  destruct (is_blank c') eqn:Ec'.
  - constructor; [exact Hc | exact IH].
  - destruct (fields (String c' s')) as [|f fs]; [repeat constructor; exact Hc|].
    inversion IH; subst. constructor; [|assumption].
    unfold no_blank in *. simpl. rewrite Ec. simpl. assumption.
Qed.

Lemma field_no_blank n s : no_blank (field n s).
Proof.
  unfold field. generalize (pred n) as k. intros k.
  pose proof (fields_no_blank s) as H. revert k.
  induction H as [|f fs Hf _ IH]; intros [|k]; simpl; try reflexivity; auto.
Qed.

Lemma strip_app_LF f :
  no_LF f -> strip_trailing_newlines (f +:+ String LF EmptyString) = f.
Proof.
  unfold no_LF. induction f as [|c f IH]; simpl; intros H; [reflexivity|].
  apply andb_true_iff in H as [Hc Hf]. apply negb_true_iff in Hc.
  rewrite (IH Hf), Hc. reflexivity.
Qed.

(** [sed_range] prints a sub-selection of its input. *)
Lemma sed_range_Forall (P : string -> Prop) ls :
  Forall P ls -> forall a, Forall P (sed_range a ls).
Proof.
  induction 1 as [|l ls Hl _ IH]; intros a; simpl; [constructor|].
  destruct a; [constructor; auto|].
  destruct (contains "Outputs:" l); [constructor; auto | auto].
Qed.

(** Outside a range, lines without [Outputs:] are skipped. *)
Lemma sed_range_skip pre ls :
  Forall (fun x => contains "Outputs:" x = false) pre ->
  sed_range false (pre ++ ls) = sed_range false ls.
Proof.
  induction 1 as [|l pre Hl _ IH]; simpl; [reflexivity|].
  rewrite Hl. exact IH.
Qed.

(** Inside a range, non-empty lines are printed and the first empty line
    closes it. *)
Lemma sed_range_body body post :
  Forall (fun x => x <> EmptyString) body ->
  sed_range true (body ++ EmptyString :: post)
  = body ++ EmptyString :: sed_range false post.
Proof.
  induction 1 as [|l body Hl _ IH]; simpl; [reflexivity|].
  destruct l as [|c l]; [congruence|]. simpl. rewrite IH. reflexivity.
Qed.

(** Inside a range that no empty line closes, everything is printed. *)
Lemma sed_range_open body :
  Forall (fun x => x <> EmptyString) body -> sed_range true body = body.
Proof.
  induction 1 as [|l body Hl _ IH]; simpl; [reflexivity|].
  destruct l as [|c l]; [congruence|]. simpl. rewrite IH. reflexivity.
Qed.

(** The general shape of the selection: the first range, then whatever
    the rest of the text selects. *)
Lemma sed_range_first pre hdr body post :
  Forall (fun x => contains "Outputs:" x = false) pre ->
  contains "Outputs:" hdr = true ->
  Forall (fun x => x <> EmptyString) body ->
  sed_range false (pre ++ hdr :: body ++ EmptyString :: post)
  = hdr :: body ++ EmptyString :: sed_range false post.
Proof.
  intros Hpre Hhdr Hbody. rewrite (sed_range_skip _ _ Hpre). simpl.
  rewrite Hhdr, (sed_range_body _ _ Hbody). reflexivity.
Qed.

Lemma sed_range_none ls :
  Forall (fun x => contains "Outputs:" x = false) ls -> sed_range false ls = [].
Proof.
  intros H. rewrite <- (app_nil_r ls). rewrite (sed_range_skip _ _ H). reflexivity.
Qed.

Lemma awk_print3_none ls :
  Forall (fun x => contains "KeyArn" x = false) ls -> awk_print3 ls = EmptyString.
Proof.
  induction 1 as [|l ls Hl _ IH]; simpl; [reflexivity|]. rewrite Hl. exact IH.
Qed.

Lemma awk_print3_app l1 l2 :
  awk_print3 (l1 ++ l2) = awk_print3 l1 +:+ awk_print3 l2.
Proof.
  induction l1 as [|l l1 IH]; simpl; [reflexivity|].
  destruct (contains "KeyArn" l); [|exact IH].
  rewrite IH, append_assoc. reflexivity.
Qed.

Lemma awk_print3_single before l after :
  Forall (fun x => contains "KeyArn" x = false) before ->
  contains "KeyArn" l = true ->
  Forall (fun x => contains "KeyArn" x = false) after ->
  awk_print3 (before ++ l :: after) = field 3 l +:+ String LF EmptyString.
Proof.
  intros Hb Hl Ha. rewrite awk_print3_app, (awk_print3_none _ Hb). simpl.
  rewrite Hl, (awk_print3_none _ Ha). reflexivity.
Qed.

(** *** What [sed] writes, line by line *)

Lemma append_nil_r (a : string) : a +:+ EmptyString = a.
Proof. induction a as [|x a IH]; [reflexivity|]. rewrite append_cons, IH. reflexivity. Qed.

Lemma unlines_app l1 l2 : unlines (l1 ++ l2) = unlines l1 +:+ unlines l2.
Proof.
  induction l1 as [|l l1 IH]; simpl; [reflexivity|].
  rewrite IH, append_assoc, append_cons. reflexivity.
Qed.

Lemma lines_single l : no_LF l -> l <> EmptyString -> lines l = [l].
Proof.
  unfold no_LF. induction l as [|c l IH]; intros H Hne; [congruence|].
  simpl in H. apply andb_true_iff in H as [Hc Hl]. apply negb_true_iff in Hc.
  simpl. rewrite Hc. destruct l as [|c' l']; [reflexivity|].
  rewrite (IH Hl) by discriminate. reflexivity.
Qed.

(** A text that stops in the middle of a line has a last line, and that
    line is not empty. *)
Lemma unterminated_last s :
  unterminated s = true -> List.last (lines s) EmptyString <> EmptyString.
Proof.
  induction s as [|c s IH]; intros H; [discriminate H|].
  destruct s as [|c' s'].
  - simpl in H. apply negb_true_iff in H. simpl. rewrite H. discriminate.
  - change (unterminated (String c' s') = true) in H. specialize (IH H).
    remember (String c' s') as t eqn:Et. simpl.
    destruct (Ascii.eqb c LF).
    + destruct (lines t) as [|l ls]; [exact IH|]. exact IH.
    + destruct (lines t) as [|l ls]; [discriminate|].
      destruct ls as [|l' ls']; [discriminate | exact IH].
Qed.

Lemma sed_range_cons a l ls :
  sed_range a (l :: ls)
  = if a then l :: sed_range (negb (is_empty l)) ls
    else if contains "Outputs:" l then l :: sed_range true ls
         else sed_range false ls.
Proof. reflexivity. Qed.

(** A printed line that is not the last one of the input. *)
Lemma sed_print_step m a l ls :
  ls <> [] ->
  sed_print m a (l :: ls)
  = if a then l +:+ String LF (sed_print m (negb (is_empty l)) ls)
    else if contains "Outputs:" l then l +:+ String LF (sed_print m true ls)
         else sed_print m false ls.
Proof.
  destruct ls as [|l' ls']; [congruence|]. intros _.
  destruct a; [|destruct (contains "Outputs:" l) eqn:E].
  - simpl. rewrite append_assoc. reflexivity.
  - simpl. rewrite E, append_assoc. reflexivity.
  - simpl. rewrite E. reflexivity.
Qed.

(** The last line of the input. *)
Lemma sed_print_last m a l :
  sed_print m a [l]
  = if a || contains "Outputs:" l
    then (if m then l else l +:+ String LF EmptyString)
    else EmptyString.
Proof.
  destruct a; [|destruct (contains "Outputs:" l) eqn:E]; simpl; rewrite ?E;
    rewrite ?append_nil_r; reflexivity.
Qed.

(** On a text that ends with [LF], every selected line is written with
    its [LF]. *)
Lemma sed_print_terminated ls :
  forall a, sed_print false a ls = unlines (sed_range a ls).
Proof.
  induction ls as [|l ls IH]; intros a; [reflexivity|].
  rewrite sed_range_cons. destruct ls as [|l' ls'].
  - rewrite sed_print_last.
    destruct a; [|destruct (contains "Outputs:" l)]; reflexivity.
  - rewrite sed_print_step by discriminate.
    destruct a; [|destruct (contains "Outputs:" l)]; simpl unlines;
      rewrite ?IH; reflexivity.
Qed.

(** Whatever the end of the text, the lines of what [sed] writes are the
    selected lines. *)
Lemma lines_sed_print m ls :
  Forall no_LF ls ->
  (m = true -> List.last ls EmptyString <> EmptyString) ->
  forall a, lines (sed_print m a ls) = sed_range a ls.
Proof.
  induction 1 as [|l ls Hl Hls IH]; intros Hlast a; [reflexivity|].
  rewrite sed_range_cons. destruct ls as [|l' ls'].
  - rewrite sed_print_last.
    assert (Hp : lines (if m then l else l +:+ String LF EmptyString) = [l]).
    { destruct m; [|apply (lines_app_LF l EmptyString Hl)].
      apply lines_single; [exact Hl | exact (Hlast eq_refl)]. }
    destruct a; [|destruct (contains "Outputs:" l)]; simpl orb; cbv iota;
      first [exact Hp | reflexivity].
  - rewrite sed_print_step by discriminate.
    assert (IH' : forall a', lines (sed_print m a' (l' :: ls')) = sed_range a' (l' :: ls')).
    { apply IH. exact Hlast. }
    destruct a; [|destruct (contains "Outputs:" l)];
      rewrite ?(lines_app_LF _ _ Hl), ?IH'; reflexivity.
Qed.

Lemma lines_sed_Outputs text :
  lines (sed_Outputs text) = sed_range false (lines text).
Proof.
  unfold sed_Outputs. apply lines_sed_print; [apply lines_no_LF|].
  apply unterminated_last.
Qed.

Lemma sed_Outputs_terminated text :
  unterminated text = false ->
  sed_Outputs text = unlines (sed_range false (lines text)).
Proof. intros H. unfold sed_Outputs. rewrite H. apply sed_print_terminated. Qed.

Lemma sed_print_skip m pre ls :
  Forall (fun x => contains "Outputs:" x = false) pre ->
  sed_print m false (pre ++ ls) = sed_print m false ls.
Proof.
  induction 1 as [|l pre Hl _ IH]; [reflexivity|].
  rewrite <- app_comm_cons. simpl. rewrite Hl. exact IH.
Qed.

Lemma sed_print_none m ls :
  Forall (fun x => contains "Outputs:" x = false) ls ->
  sed_print m false ls = EmptyString.
Proof.
  intros H. rewrite <- (app_nil_r ls). rewrite (sed_print_skip _ _ _ H). reflexivity.
Qed.

Lemma sed_print_body m body rest :
  Forall (fun x => x <> EmptyString) body -> rest <> [] ->
  sed_print m true (body ++ rest) = unlines body +:+ sed_print m true rest.
Proof.
  intros Hbody Hrest. induction Hbody as [|l body Hl _ IH]; [reflexivity|].
  rewrite <- app_comm_cons, sed_print_step.
  - destruct l as [|c l]; [congruence|]. simpl negb. rewrite IH.
    simpl unlines. rewrite append_assoc, append_cons. reflexivity.
  - intros H. apply app_eq_nil in H. tauto.
Qed.

(** A region that an empty line closes is written whole, each line with
    its [LF], when no later line opens another one. *)
Lemma sed_print_region m pre hdr body post :
  Forall (fun x => contains "Outputs:" x = false) pre ->
  contains "Outputs:" hdr = true ->
  Forall (fun x => x <> EmptyString) body ->
  Forall (fun x => contains "Outputs:" x = false) post ->
  (m = true -> post <> []) ->
  sed_print m false (pre ++ hdr :: body ++ EmptyString :: post)
  = unlines (hdr :: body ++ [EmptyString]).
Proof.
  intros Hpre Hhdr Hbody Hpost Hm.
  rewrite (sed_print_skip _ _ _ Hpre).
  rewrite sed_print_step by (intros H; apply app_eq_nil in H; destruct H; discriminate).
  rewrite Hhdr, (sed_print_body _ _ _ Hbody) by discriminate.
  simpl unlines. rewrite unlines_app. do 2 f_equal. f_equal.
  destruct post as [|p post].
  - rewrite sed_print_last. destruct m; [exfalso; apply (Hm eq_refl); reflexivity|].
    reflexivity.
  - rewrite sed_print_step by discriminate. simpl negb. cbv iota.
    rewrite (sed_print_none _ _ Hpost). reflexivity.
Qed.

(** What the two filters compute on a text, in terms of its lines. *)
Lemma extract_key_arn_lines text :
  extract_key_arn text
  = strip_trailing_newlines (awk_print3 (sed_range false (lines text))).
Proof.
  unfold extract_key_arn, cfn_outputs, awk_KeyArn.
  rewrite lines_sed_Outputs. reflexivity.
Qed.

(** Patterns and concatenation. *)
Lemma prefix_nil s : String.prefix EmptyString s = true.
Proof. destruct s; reflexivity. Qed.

Lemma prefix_append p s t :
  String.prefix p s = true -> String.prefix p (s +:+ t) = true.
Proof.
  revert s. induction p as [|a p IH]; intros s H; [apply prefix_nil|].
  destruct s as [|b s]; [discriminate H|].
  rewrite append_cons. simpl in *.
  destruct (ascii_dec a b); [apply IH; exact H | discriminate H].
Qed.

Lemma contains_prefix p s : String.prefix p s = true -> contains p s = true.
Proof. intros H. destruct s; simpl in *; rewrite H; reflexivity. Qed.

Lemma contains_append_r p s t :
  contains p s = true -> contains p (s +:+ t) = true.
Proof.
  induction s as [|x s IH]; intros H.
  - simpl in H. rewrite orb_false_r in H.
    destruct p; [|discriminate H]. apply contains_prefix, prefix_nil.
  - rewrite append_cons. simpl in H.
    apply orb_true_iff in H as [H | H].
    + apply contains_prefix.
      rewrite <- append_cons. apply prefix_append. exact H.
    + simpl. rewrite (IH H). apply orb_true_r.
Qed.

Lemma contains_append_l p a s :
  contains p s = true -> contains p (a +:+ s) = true.
Proof.
  intros H. induction a as [|x a IH]; [exact H|].
  rewrite append_cons. simpl. rewrite IH. apply orb_true_r.
Qed.

Lemma no_blank_append a b : no_blank a -> no_blank b -> no_blank (a +:+ b).
Proof.
  unfold no_blank. intros Ha Hb. induction a as [|x a IH]; [exact Hb|].
  rewrite append_cons. simpl in *.
  apply andb_true_iff in Ha as [Hx Ha]. rewrite Hx. simpl. apply IH. exact Ha.
Qed.

(** A blank ends the field that precedes it. *)
Lemma fields_cons_blank b rest :
  is_blank b = true -> fields (String b rest) = fields rest.
Proof. intros H. simpl. rewrite H. reflexivity. Qed.

Lemma fields_word_then_blank a b rest :
  no_blank a -> a <> EmptyString -> is_blank b = true ->
  fields (a +:+ String b rest) = a :: fields rest.
Proof.
  intros Ha Hne Hb. destruct a as [|c a]; [congruence|]. clear Hne.
  revert c Ha. induction a as [|c' a IH]; intros c Ha;
    unfold no_blank in Ha; simpl in Ha;
    apply andb_true_iff in Ha as [Hc Ha]; apply negb_true_iff in Hc.
  - rewrite !append_cons.
    change (fields (String c (EmptyString +:+ String b rest)))
      with (if is_blank c then fields (String b rest)
            else if is_blank b then String c EmptyString :: fields (String b rest)
                 else match fields (String b rest) with
                      | f :: fs => String c f :: fs
                      | [] => [String c EmptyString]
                      end).
    rewrite Hc, Hb, (fields_cons_blank _ _ Hb). reflexivity.
  - pose proof Ha as Ha'. apply andb_true_iff in Ha' as [Hc' _].
    apply negb_true_iff in Hc'.
    rewrite !append_cons.
    change (fields (String c (String c' (a +:+ String b rest))))
      with (if is_blank c then fields (String c' (a +:+ String b rest))
            else if is_blank c'
                 then String c EmptyString :: fields (String c' (a +:+ String b rest))
                 else match fields (String c' (a +:+ String b rest)) with
                      | f :: fs => String c f :: fs
                      | [] => [String c EmptyString]
                      end).
    rewrite Hc, Hc'. rewrite <- append_cons, (IH c' Ha). reflexivity.
Qed.

Lemma fields_no_blank_word v :
  no_blank v -> fields v = match v with EmptyString => [] | _ => [v] end.
Proof.
  destruct v as [|c v]; [reflexivity|]. revert c.
  induction v as [|c' v IH]; intros c H; unfold no_blank in H; simpl in H;
    apply andb_true_iff in H as [Hc H]; apply negb_true_iff in Hc.
  - simpl. rewrite Hc. reflexivity.
  - pose proof H as H'. apply andb_true_iff in H' as [Hc' _].
    apply negb_true_iff in Hc'.
    change (fields (String c (String c' v)))
      with (if is_blank c then fields (String c' v)
            else if is_blank c' then String c EmptyString :: fields (String c' v)
                 else match fields (String c' v) with
                      | f :: fs => String c f :: fs
                      | [] => [String c EmptyString]
                      end).
    rewrite Hc, Hc', (IH c' H). reflexivity.
Qed.

(** The third field of a line [name = value]. *)
Lemma field3_assignment name value :
  no_blank name -> name <> EmptyString -> no_blank value ->
  field 3 (name +:+ " = " +:+ value) = value.
Proof.
  intros Hn Hne Hv. unfold field.
  change (name +:+ " = " +:+ value)
    with (name +:+ String " " ("=" +:+ String " " value)).
  rewrite (fields_word_then_blank name " " _ Hn Hne eq_refl).
  rewrite (fields_word_then_blank "=" " " value); [|reflexivity|discriminate|reflexivity].
  rewrite (fields_no_blank_word _ Hv). destruct value; reflexivity.
Qed.

End TextFacts.

(* ===================================================================== *)
(** ** The key-ARN extraction *)
(* ===================================================================== *)

Module KeyArn.
Import Text TextFacts Samples.

Lemma through_blank_body body post :
  Forall (fun x => x <> EmptyString) body ->
  through_blank (body ++ EmptyString :: post) = body ++ [EmptyString].
Proof.
  induction 1 as [|l body Hl _ IH]; simpl; [reflexivity|].
  destruct l as [|c l]; [congruence|]. simpl. rewrite IH. reflexivity.
Qed.

Lemma first_Outputs_region_first pre hdr body post :
  Forall (fun x => contains "Outputs:" x = false) pre ->
  contains "Outputs:" hdr = true ->
  Forall (fun x => x <> EmptyString) body ->
  first_Outputs_region (pre ++ hdr :: body ++ EmptyString :: post)
  = hdr :: body ++ [EmptyString].
Proof.
  intros Hpre Hhdr Hbody.
  induction Hpre as [|l pre Hl _ IH]; simpl.
  - rewrite Hhdr, (through_blank_body _ _ Hbody). reflexivity.
  - rewrite Hl. exact IH.
Qed.

Example extract_example_block : extract_key_arn example_block = "abcd1234".
Proof. reflexivity. Qed.

Example extract_two_sections :
  extract_key_arn two_sections = "arn:aws:kms:us-west-2:111111111111:key/abc".
Proof. reflexivity. Qed.

Example extract_two_key_lines :
  extract_key_arn two_key_lines = "k1" +:+ String LF "k2".
Proof. reflexivity. Qed.

(** C2, as stated, fails: [sed] opens a new range at every later
    [Outputs:] line, so the selection is not only the first region, and
    with two [KeyArn] lines the result is not the third token of a line. *)
Lemma extraction_not_first_region_only :
  ~ spec_extraction two_sections /\ ~ spec_extraction two_key_lines.
Proof.
  split.
  - intros [H _]. vm_compute in H. discriminate H.
  - intros [_ H]. rewrite extract_two_key_lines in H.
    remember ("k1" +:+ String LF "k2") as r eqn:Er.
    destruct H as [l _ _ | _].
    + pose proof (no_blank_no_LF _ (field_no_blank 3 l)) as Hno.
      rewrite Er in Hno. vm_compute in Hno. discriminate Hno.
    + discriminate Er.
Qed.

(** A text with one [Outputs:] region: what is selected and what is
    extracted. *)
Lemma single_region_selection text pre hdr body post :
  lines text = pre ++ hdr :: body ++ EmptyString :: post ->
  Forall (fun x => contains "Outputs:" x = false) pre ->
  contains "Outputs:" hdr = true ->
  Forall (fun x => x <> EmptyString) body ->
  Forall (fun x => contains "Outputs:" x = false) post ->
  sed_range false (lines text) = hdr :: body ++ [EmptyString].
Proof.
  intros Hlines Hpre Hhdr Hbody Hpost.
  rewrite Hlines, (sed_range_first _ _ _ _ Hpre Hhdr Hbody).
  rewrite (sed_range_none _ Hpost). reflexivity.
Qed.

Lemma single_region_extraction text pre hdr body post before l after :
  lines text = pre ++ hdr :: body ++ EmptyString :: post ->
  Forall (fun x => contains "Outputs:" x = false) pre ->
  contains "Outputs:" hdr = true ->
  Forall (fun x => x <> EmptyString) body ->
  Forall (fun x => contains "Outputs:" x = false) post ->
  hdr :: body = before ++ l :: after ->
  Forall (fun x => contains "KeyArn" x = false) before ->
  contains "KeyArn" l = true ->
  Forall (fun x => contains "KeyArn" x = false) after ->
  extract_key_arn text = field 3 l.
Proof.
  intros Hlines Hpre Hhdr Hbody Hpost Hsplit Hb Hl Ha.
  rewrite extract_key_arn_lines.
  rewrite (single_region_selection _ _ _ _ _ Hlines Hpre Hhdr Hbody Hpost).
  change (hdr :: body ++ [EmptyString]) with ((hdr :: body) ++ [EmptyString]).
  rewrite Hsplit, <- app_assoc. simpl.
  rewrite (awk_print3_single before l (after ++ [EmptyString])); auto.
  - apply strip_app_LF, no_blank_no_LF, field_no_blank.
  - apply Forall_app; split; [assumption|]. repeat constructor.
Qed.

(** C2 (amended): when the captured text has one [Outputs:] region (no
    line after its closing blank line matches [Outputs:]) the selection
    is exactly that region, first matching line through the blank line;
    when moreover one line of the region contains [KeyArn], the result
    is the third whitespace-delimited token of that line.  The
    specification's example yields [abcd1234], and a text without any
    [KeyArn] line yields the empty string. *)
Theorem key_arn_extraction :
  (forall text pre hdr body post,
      lines text = pre ++ hdr :: body ++ EmptyString :: post ->
      Forall (fun x => contains "Outputs:" x = false) pre ->
      contains "Outputs:" hdr = true ->
      Forall (fun x => x <> EmptyString) body ->
      Forall (fun x => contains "Outputs:" x = false) post ->
      sed_range false (lines text) = first_Outputs_region (lines text) /\
      cfn_outputs text = unlines (hdr :: body ++ [EmptyString]) /\
      forall before l after,
        hdr :: body = before ++ l :: after ->
        Forall (fun x => contains "KeyArn" x = false) before ->
        contains "KeyArn" l = true ->
        Forall (fun x => contains "KeyArn" x = false) after ->
        extract_key_arn text = field 3 l) /\
  extract_key_arn example_block = "abcd1234" /\
  (forall text,
      Forall (fun x => contains "KeyArn" x = false) (lines text) ->
      extract_key_arn text = EmptyString).
Proof.
  split; [|split].
  - intros text pre hdr body post Hlines Hpre Hhdr Hbody Hpost.
    pose proof (single_region_selection _ _ _ _ _ Hlines Hpre Hhdr Hbody Hpost)
      as Hsel.
    split; [|split].
    + rewrite Hsel, Hlines.
      symmetry. apply first_Outputs_region_first; assumption.
    + unfold cfn_outputs, sed_Outputs. rewrite Hlines.
      apply sed_print_region; try assumption.
      intros Hm ->. apply unterminated_last in Hm. apply Hm.
      rewrite Hlines.
      change (hdr :: body ++ [EmptyString]) with ((hdr :: body) ++ [EmptyString]).
      rewrite app_assoc. apply last_last.
    + intros before l after. now apply single_region_extraction with pre post.
  - reflexivity.
  - intros text H. rewrite extract_key_arn_lines.
    rewrite awk_print3_none; [reflexivity|].
    apply sed_range_Forall. exact H.
Qed.

(** The theorem at the specification's example and at the output of a
    real deployment. *)
Lemma key_arn_extraction_witness :
  extract_key_arn example_block = "abcd1234" /\
  extract_key_arn pipeline_output = "arn:aws:kms:us-west-2:111111111111:key/abc".
Proof.
  destruct key_arn_extraction as [Hgen [Hex _]].
  split; [exact Hex|].
  refine (proj2 (proj2 (Hgen pipeline_output
            [" CrossAccountPipelineStack"; ""]
            "Outputs:"
            ["CrossAccountPipelineStack.ArtifactBucketEncryptionKeyArn = arn:aws:kms:us-west-2:111111111111:key/abc"]
            ["Stack ARN:";
             "arn:aws:cloudformation:us-west-2:111111111111:stack/CrossAccountPipelineStack/1"]
            _ _ _ _ _))
           ["Outputs:"]
           "CrossAccountPipelineStack.ArtifactBucketEncryptionKeyArn = arn:aws:kms:us-west-2:111111111111:key/abc"
           [] _ _ _ _).
  - reflexivity.
  - repeat constructor.
  - reflexivity.
  - repeat constructor; discriminate.
  - repeat constructor.
  - reflexivity.
  - repeat constructor.
  - reflexivity.
  - constructor.
Defined.

End KeyArn.

(* ===================================================================== *)
(** ** Facts about the shell model *)
(* ===================================================================== *)

Module ShellFacts.
Import Text Shell.

Lemma trace_emit es r : trace (emit es r) = es ++ trace r.
Proof. reflexivity. Qed.

Lemma launched_app l1 l2 : launched (l1 ++ l2) = launched l1 ++ launched l2.
Proof.
  induction l1 as [|e l1 IH]; [reflexivity|].
  destruct e; simpl; rewrite IH; reflexivity.
Qed.

Lemma own_app l1 l2 : own (l1 ++ l2) = own l1 ++ own l2.
Proof. unfold own. apply List.filter_app. Qed.

Lemma own_incl lg e : In e (own lg) -> In e lg.
Proof. unfold own. intros H. apply List.filter_In in H. tauto. Qed.

Lemma launched_own lg : launched (own lg) = launched lg.
Proof.
  induction lg as [|e lg IH]; [reflexivity|].
  destruct e; simpl; rewrite ?IH; try reflexivity; exact IH.
Qed.

(** The script itself never records the end of a background job. *)
Lemma exec_no_finished w p :
  forall pid fs, Forall (fun e => is_finished e = false) (trace (exec w pid fs p)).
Proof.
  induction p as [| |t k IH|c k IH|c k IH|c k IH|c f k IH]; intros pid fs; simpl.
  - constructor.
  - constructor.
  - constructor; [reflexivity | apply IH].
  - repeat (constructor; [reflexivity|]). apply IH.
  - constructor; [reflexivity | apply IH].
  - repeat (constructor; [reflexivity|]). apply IH.
  - destruct (f fs) as [fs' r]. simpl.
    repeat (constructor; [reflexivity|]). apply IH.
Qed.

(** Whatever the scheduling, the script's own part of the log followed by
    what is still pending is the sequential trace. *)
Lemma step_own w m m' :
  step w m m' ->
  Forall (fun e => is_finished e = false) (pending m) ->
  Forall (fun e => is_finished e = false) (pending m') /\
  own (log m') ++ pending m' = own (log m) ++ pending m.
Proof.
  intros Hstep Hp. destruct Hstep as [e tr js lg | tr js1 pid js2 lg]; simpl in *.
  - inversion Hp as [|? ? He Htr]; subst. split; [exact Htr|].
    rewrite own_app. unfold own at 2. simpl. rewrite He. simpl.
    rewrite <- app_assoc. reflexivity.
  - split; [exact Hp|]. rewrite own_app. unfold own at 2. simpl.
    rewrite app_nil_r. reflexivity.
Qed.

Lemma reachable_own w fs p m :
  reachable w fs p m ->
  own (log m) ++ pending m = trace (exec w 0 fs p).
Proof.
  unfold reachable. intros H.
  enough (Forall (fun e => is_finished e = false) (pending m) /\
          own (log m) ++ pending m = trace (exec w 0 fs p)) by tauto.
  revert m H. apply rtc_ind_r.
  - split; [apply exec_no_finished | reflexivity].
  - intros m1 m2 _ Hstep [Hp Heq].
    destruct (step_own _ _ _ Hstep Hp) as [Hp' Heq'].
    split; [exact Hp' | congruence].
Qed.

(** Whatever has been launched so far is launched by the sequential run. *)
Lemma reachable_launched w fs p m c :
  reachable w fs p m ->
  In c (launched (log m)) -> In c (launched (trace (exec w 0 fs p))).
Proof.
  intros Hm Hc. apply reachable_own in Hm. rewrite <- Hm.
  rewrite launched_app, launched_own. apply in_or_app. left. exact Hc.
Qed.

(** The script can always run on its own for a while, no job ending. *)
Lemma reachable_script_prefix w fs p t1 t2 :
  trace (exec w 0 fs p) = t1 ++ t2 ->
  reachable w fs p
    {| pending := t2; jobs := flat_map spawned t1; log := t1 |}.
Proof.
  revert t2. induction t1 as [|e t1 IH] using rev_ind; intros t2 H.
  - simpl in H. unfold reachable, boot. rewrite H. constructor.
  - rewrite <- app_assoc in H. simpl in H.
    eapply rtc_r; [apply (IH _ H)|].
    rewrite flat_map_app. simpl. rewrite app_nil_r.
    apply step_script.
Qed.

(** If a list starts with [P] and an element outside [P] occurs in it,
    all of [P] lies before that occurrence. *)
Lemma prefix_before {A} (P R l1 l2 : list A) (e : A) :
  P ++ R = l1 ++ e :: l2 -> ~ In e P -> exists l1', l1 = P ++ l1'.
Proof.
  revert l1. induction P as [|x P IH]; intros l1 H Hn.
  - exists l1. reflexivity.
  - destruct l1 as [|y l1]; simpl in H.
    + injection H as Hx _. exfalso. apply Hn. left. exact Hx.
    + injection H as Hx H. subst y.
      destruct (IH l1 H) as [l1' ->].
      * intros Hin. apply Hn. right. exact Hin.
      * exists l1'. reflexivity.
Qed.

End ShellFacts.

(* ===================================================================== *)
(** ** The run of the bootstrap script *)
(* ===================================================================== *)

Module BootstrapFacts.
Import Text Shell Bootstrap ShellFacts.

Ltac run_script :=
  cbn [exec printf bg run run_tee util exit_ emit trace final_files how
       app launched do_rm_rf do_sed do_awk stdout status
       cdk_output_file cfn_outputs_file tee_append expand].

Lemma accounts_set_cond env :
  accounts_set env ->
  test_z (expand (TOOLS_ACCOUNT_ID env)) || test_z (expand (UAT_ACCOUNT_ID env))
  || test_z (expand (PROD_ACCOUNT_ID env)) = false.
Proof.
  intros (Ht & Hu & Hp).
  destruct (expand (TOOLS_ACCOUNT_ID env)); [congruence|].
  destruct (expand (UAT_ACCOUNT_ID env)); [congruence|].
  destruct (expand (PROD_ACCOUNT_ID env)); [congruence|].
  reflexivity.
Qed.

(** With the accounts set, the script reaches the key check. *)
Lemma exec_until_check env w fs :
  accounts_set env ->
  exec w 0 fs (automate_deployment env)
  = emit (trace_before_check env w)
         (exec w 13 (files_after_extraction w)
               (after_extraction env (key_arn_in w))).
Proof.
  intros H. unfold automate_deployment, when.
  rewrite (accounts_set_cond _ H). reflexivity.
Qed.

(** With an account missing, it prints the diagnostics and exits. *)
Lemma exec_account_missing env w fs :
  test_z (expand (TOOLS_ACCOUNT_ID env)) || test_z (expand (UAT_ACCOUNT_ID env))
  || test_z (expand (PROD_ACCOUNT_ID env)) = true ->
  exec w 0 fs (automate_deployment env)
  = {| trace := map Out diagnostic_accounts; final_files := fs; how := Exited |}.
Proof.
  intros H. unfold automate_deployment, when. rewrite H. reflexivity.
Qed.

(** The key check. *)
Lemma exec_check_empty env w pid fs :
  exec w pid fs (after_extraction env EmptyString)
  = {| trace := [Out diagnostic_key]; final_files := fs; how := Exited |}.
Proof. reflexivity. Qed.

Lemma exec_check_nonempty env w pid fs K :
  K <> EmptyString ->
  exec w pid fs (after_extraction env K)
  = emit (trace_phase2 env w pid K)
         (exec w (S (S (S (S pid)))) fs (commit_and_cleanup env)).
Proof.
  intros HK. unfold after_extraction, when.
  destruct K as [|c K]; [congruence|]. reflexivity.
Qed.

End BootstrapFacts.

(* ===================================================================== *)
(** ** Properties of the bootstrap *)
(* ===================================================================== *)

Module BootstrapClaims.
Import Text TextFacts Shell Bootstrap ShellFacts BootstrapFacts.

(** *** Phase 2 against phase 1 *)

Lemma roles2_cross_uat_eq env K :
  roles2_cross_uat env K = roles1_cross_uat env ++ word ("KeyArn=" +:+ K).
Proof. unfold roles2_cross_uat, roles1_cross_uat. rewrite <- !app_assoc. reflexivity. Qed.

Lemma roles2_cfn_uat_eq env K :
  roles2_cfn_uat env K = roles1_cfn_uat env ++ word ("KeyArn=" +:+ K).
Proof. unfold roles2_cfn_uat, roles1_cfn_uat. rewrite <- !app_assoc. reflexivity. Qed.

Lemma roles2_cross_prod_eq env K :
  roles2_cross_prod env K = roles1_cross_prod env ++ word ("KeyArn=" +:+ K).
Proof. unfold roles2_cross_prod, roles1_cross_prod. rewrite <- !app_assoc. reflexivity. Qed.

Lemma roles2_cfn_prod_eq env K :
  roles2_cfn_prod env K = roles1_cfn_prod env ++ word ("KeyArn=" +:+ K).
Proof. unfold roles2_cfn_prod, roles1_cfn_prod. rewrite <- !app_assoc. reflexivity. Qed.

(** A word that starts with a non-blank character gives at least one
    field. *)
Lemma fields_nonblank_head c s : is_blank c = false -> fields (String c s) <> [].
Proof.
  intros Hc. simpl. rewrite Hc.
  destruct s as [|c' s']; [discriminate|].
  destruct (is_blank c'); [discriminate|].
  destruct (fields (String c' s')); discriminate.
Qed.

Lemma word_KeyArn_nonempty K : word ("KeyArn=" +:+ K) <> [].
Proof. apply fields_nonblank_head. reflexivity. Qed.

Lemma word_KeyArn_single K :
  no_blank K -> word ("KeyArn=" +:+ K) = ["KeyArn=" +:+ K].
Proof.
  intros H. unfold word.
  rewrite fields_no_blank_word; [reflexivity|].
  unfold no_blank in *. simpl. exact H.
Qed.

(** C6: the four deployments of phase 2 are those of phase 1 (same
    template, stack name, capabilities, profile, [ToolsAccountID] and
    [Stage]), each with the words of [KeyArn=${KEY_ARN}] added at the end
    (one more parameter when the key has no blank); the script lists
    the two Prod deployments in the other order. So the targets
    (template, stack, profile) and with them the role identifiers are
    the same in both phases. *)
Theorem phase2_redeploys_phase1_roles env K :
  Permutation (phase2_commands env K)
              (map (fun c => c ++ word ("KeyArn=" +:+ K)) (phase1_commands env)) /\
  (no_blank K -> word ("KeyArn=" +:+ K) = ["KeyArn=" +:+ K]) /\
  map target (phase1_commands env)
  = [("templates/CodePipelineCrossAccountRole.yml", "CodePipelineCrossAccountRole", "uat");
     ("templates/CloudFormationDeploymentRole.yml", "CloudFormationDeploymentRole", "uat");
     ("templates/CodePipelineCrossAccountRole.yml", "CodePipelineCrossAccountRole", "prod");
     ("templates/CloudFormationDeploymentRole.yml", "CloudFormationDeploymentRole", "prod")] /\
  Permutation (map target (phase2_commands env K))
              (map target (phase1_commands env)) /\
  Permutation (map (role_identifier env) (phase2_commands env K))
              (map (role_identifier env) (phase1_commands env)).
Proof.
  split; [|split; [|split; [reflexivity|split]]].
  - unfold phase2_commands, phase1_commands. simpl.
    rewrite roles2_cross_uat_eq, roles2_cfn_uat_eq,
            roles2_cross_prod_eq, roles2_cfn_prod_eq.
    do 2 apply perm_skip. apply perm_swap.
  - apply word_KeyArn_single.
  - change (map target (phase2_commands env K))
      with [target (roles1_cross_uat env); target (roles1_cfn_uat env);
            target (roles1_cfn_prod env); target (roles1_cross_prod env)].
    change (map target (phase1_commands env))
      with [target (roles1_cross_uat env); target (roles1_cfn_uat env);
            target (roles1_cross_prod env); target (roles1_cfn_prod env)].
    do 2 apply perm_skip. apply perm_swap.
  - unfold phase2_commands, phase1_commands. simpl.
    change (role_identifier env (roles2_cross_uat env K))
      with (role_identifier env (roles1_cross_uat env)).
    change (role_identifier env (roles2_cfn_uat env K))
      with (role_identifier env (roles1_cfn_uat env)).
    change (role_identifier env (roles2_cfn_prod env K))
      with (role_identifier env (roles1_cfn_prod env)).
    change (role_identifier env (roles2_cross_prod env K))
      with (role_identifier env (roles1_cross_prod env)).
    do 2 apply perm_skip. apply perm_swap.
Qed.

Lemma phase2_redeploys_phase1_roles_witness :
  phase2_commands env0 "arn:aws:kms:us-west-2:111111111111:key/abc"
  = [roles1_cross_uat env0 ++ ["KeyArn=arn:aws:kms:us-west-2:111111111111:key/abc"];
     roles1_cfn_uat env0 ++ ["KeyArn=arn:aws:kms:us-west-2:111111111111:key/abc"];
     roles1_cfn_prod env0 ++ ["KeyArn=arn:aws:kms:us-west-2:111111111111:key/abc"];
     roles1_cross_prod env0 ++ ["KeyArn=arn:aws:kms:us-west-2:111111111111:key/abc"]] /\
  word ("KeyArn=" +:+ "arn:aws:kms:us-west-2:111111111111:key/abc")
  = ["KeyArn=arn:aws:kms:us-west-2:111111111111:key/abc"].
Proof.
  split; [reflexivity|].
  apply (proj1 (proj2 (phase2_redeploys_phase1_roles env0 _))).
  reflexivity.
Defined.

(** *** The whole run, when everything goes well

    Accounts 111..., 222..., 333...: phase 1 deploys the four role
    stacks without key, the pipeline deployment prints the key ARN, phase
    2 deploys the same four stacks with it, the code is pushed to
    [repo-111111111111] and the temporary files are removed. *)
Example end_to_end :
  let r := exec all_fine 0 no_files (automate_deployment env0) in
  how r = Ended /\
  launched (trace r)
  = phase1_commands env0 ++ stack_commands env0 ++ extraction_commands
    ++ phase2_commands env0 "arn:aws:kms:us-west-2:111111111111:key/abc"
    ++ push_commands env0 ++ [rm_outputs] /\
  final_files r = no_files.
Proof. vm_compute. split; [|split]; reflexivity. Qed.

(** *** The account precondition *)

(** C4: if one of the three account identifiers is unset, the script
    prints its diagnostics and exits: no command is launched (no
    [aws cloudformation deploy], no [cdk deploy], no [git push], nothing
    else), the local files are untouched; this holds for the sequential
    run and for every state of the machine with background jobs. *)
Theorem missing_account_short_circuit env w fs :
  TOOLS_ACCOUNT_ID env = None \/ UAT_ACCOUNT_ID env = None \/
  PROD_ACCOUNT_ID env = None ->
  exec w 0 fs (automate_deployment env)
  = {| trace := map Out diagnostic_accounts; final_files := fs; how := Exited |} /\
  launched (trace (exec w 0 fs (automate_deployment env))) = [] /\
  forall m, reachable w fs (automate_deployment env) m -> launched (log m) = [].
Proof.
  intros H.
  assert (Hexec : exec w 0 fs (automate_deployment env)
                  = {| trace := map Out diagnostic_accounts;
                       final_files := fs; how := Exited |}).
  { apply exec_account_missing.
    destruct H as [H | [H | H]]; rewrite H; simpl;
      rewrite ?orb_true_r; reflexivity. }
  split; [exact Hexec|]. rewrite Hexec. split; [reflexivity|].
  intros m Hm. apply reachable_own in Hm. rewrite Hexec in Hm. simpl in Hm.
  apply (f_equal launched) in Hm. rewrite launched_app, launched_own in Hm.
  simpl in Hm. apply app_eq_nil in Hm. tauto.
Qed.

Lemma missing_account_short_circuit_witness :
  exec all_fine 0 no_files
       (automate_deployment {| TOOLS_ACCOUNT_ID := Some "111111111111";
                               UAT_ACCOUNT_ID := None;
                               PROD_ACCOUNT_ID := Some "333333333333" |})
  = {| trace := map Out diagnostic_accounts; final_files := no_files; how := Exited |}.
Proof.
  apply (missing_account_short_circuit
           {| TOOLS_ACCOUNT_ID := Some "111111111111";
              UAT_ACCOUNT_ID := None;
              PROD_ACCOUNT_ID := Some "333333333333" |} all_fine no_files).
  right; left; reflexivity.
Defined.

(** *** The key check *)

(** Telling commands apart: by a word at a fixed place, or by their
    number of words. *)
Ltac by_word n H :=
  apply (f_equal (fun c : argv => nth n c EmptyString)) in H;
  lazy in H; discriminate H.

Ltac by_key_words H :=
  rewrite ?roles2_cross_uat_eq, ?roles2_cfn_uat_eq,
          ?roles2_cross_prod_eq, ?roles2_cfn_prod_eq in H;
  match type of H with
  | ?c = ?c ++ ?ws =>
      rewrite <- (app_nil_r c) in H at 1;
      apply app_inv_head in H; symmetry in H;
      exact (word_KeyArn_nonempty _ H)
  end.

Ltac differ H :=
  first [ by_word 0 H | by_word 1 H | by_word 2 H | by_word 4 H
        | by_word 10 H | by_key_words H ].

(** C3: with the accounts set, if the extracted key ARN is empty the
    script prints its diagnostic and exits right after the pipeline
    deployment and the extraction: the commands launched are those of
    phase 1, of the two stacks and of the extraction, and none of the
    phase-2 role deployments, of the commit and push commands or of the
    final clean-up, neither in the sequential run nor in any state of
    the machine with background jobs. *)
Theorem empty_key_aborts env w fs :
  accounts_set env ->
  key_arn_in w = EmptyString ->
  how (exec w 0 fs (automate_deployment env)) = Exited /\
  trace (exec w 0 fs (automate_deployment env))
  = trace_before_check env w ++ [Out diagnostic_key] /\
  launched (trace (exec w 0 fs (automate_deployment env)))
  = phase1_commands env ++ stack_commands env ++ extraction_commands /\
  forall K c,
    In c (phase2_commands env K ++ push_commands env ++ [rm_outputs]) ->
    ~ In c (launched (trace (exec w 0 fs (automate_deployment env)))) /\
    forall m, reachable w fs (automate_deployment env) m ->
              ~ In c (launched (log m)).
Proof.
  intros Hacc Hkey.
  split; [|split; [|split]];
    try (rewrite (exec_until_check _ _ _ Hacc), Hkey, exec_check_empty;
         reflexivity).
  intros K c Hc.
  enough (Hseq : ~ In c (launched (trace (exec w 0 fs (automate_deployment env))))).
  { split; [exact Hseq|]. intros m Hm Hin.
    apply Hseq. exact (reachable_launched _ _ _ _ _ Hm Hin). }
  rewrite (exec_until_check _ _ _ Hacc), Hkey, exec_check_empty.
  intros Hin.
  cbn [trace emit launched app trace_before_check] in Hin.
  cbn [phase2_commands push_commands app] in Hc.
  repeat (destruct Hc as [Hc | Hc]; [subst c|]); [..|destruct Hc];
    repeat (destruct Hin as [Hin | Hin]; [differ Hin|]); destruct Hin.
Qed.

Lemma empty_key_aborts_witness :
  how (exec no_outputs 0 no_files (automate_deployment env0)) = Exited /\
  List.last (trace (exec no_outputs 0 no_files (automate_deployment env0))) (Out EmptyString)
  = Out diagnostic_key.
Proof.
  assert (Hacc : accounts_set env0) by (repeat split; discriminate).
  destruct (empty_key_aborts env0 no_outputs no_files Hacc eq_refl)
    as (Hhow & Htr & _).
  split; [exact Hhow|]. rewrite Htr. reflexivity.
Defined.

(** *** Failing deployments *)

(** An [&&] list of commands that are not of some kind launches no
    command of that kind, whichever of them fail. *)
Lemma and_list_filter (f : argv -> bool) w fs cs k L :
  Forall (fun c => f c = false) cs ->
  (forall pid, List.filter f (launched (trace (exec w pid fs k))) = L) ->
  forall pid, List.filter f (launched (trace (exec w pid fs (and_list cs k)))) = L.
Proof.
  intros Hcs Hk. induction Hcs as [|c cs Hc _ IH]; intros pid; simpl.
  - apply Hk.
  - rewrite Hc. destruct (Nat.eqb (status (w pid)) 0); [apply IH | apply Hk].
Qed.

(** The commit and clean-up part launches no deployment. *)
Lemma commit_and_cleanup_no_deploy env w fs pid :
  List.filter is_deploy (launched (trace (exec w pid fs (commit_and_cleanup env)))) = [].
Proof.
  unfold commit_and_cleanup. run_script.
  revert pid. apply and_list_filter; [repeat constructor|]. intros pid.
  run_script. cbn [List.filter].
  change (is_deploy (git_remote_add env)) with false. cbv iota.
  generalize (S pid). apply and_list_filter; [repeat constructor|]. intros pid'.
  reflexivity.
Qed.

(** C5, as stated, fails: in a world where the last role deployment of
    phase 1 returns a failure, the script still launches the stack
    deployments, the phase-2 deployments and the push. *)
Lemma deployments_continue_after_failure :
  ~ aborts_after_failure
      (trace (exec role_deploy_fails 0 no_files (automate_deployment env0))).
Proof.
  intros H.
  pose (tr := trace (exec role_deploy_fails 0 no_files (automate_deployment env0))).
  assert (Hsplit : tr = List.firstn 4 tr
                        ++ Started 3 false (roles1_cfn_prod env0)
                        :: Completed 3 (role_deploy_fails 3)
                        :: List.skipn 6 tr) by (vm_compute; reflexivity).
  specialize (H _ _ _ _ _ _ Hsplit eq_refl).
  assert (Hst : status (role_deploy_fails 3) <> 0) by discriminate.
  destruct (H Hst cdk_deploy_RepositoryStack) as [Hd _].
  - vm_compute. tauto.
  - discriminate Hd.
Qed.

(** C5 (amended): the script never looks at the exit status of a
    deployment and never retries one. With the accounts set, whatever
    the exit statuses, the deployments launched are, once each and in
    this order: the four role deployments of phase 1, the deployment of
    [RepositoryStack], that of [CrossAccountPipelineStack], and, unless
    the extracted key ARN is empty, the four role deployments of phase
    2. Only the two guards (accounts, key) end the script early. *)
Theorem deployments_whatever_the_status env w fs :
  accounts_set env ->
  List.filter is_deploy (launched (trace (exec w 0 fs (automate_deployment env))))
  = phase1_commands env
    ++ [cdk_deploy_RepositoryStack; cdk_deploy_CrossAccountPipelineStack env]
    ++ (if test_z (key_arn_in w) then [] else phase2_commands env (key_arn_in w)).
Proof.
  intros Hacc. rewrite (exec_until_check _ _ _ Hacc).
  rewrite trace_emit, launched_app, List.filter_app.
  change (List.filter is_deploy (launched (trace_before_check env w)))
    with (phase1_commands env
          ++ [cdk_deploy_RepositoryStack; cdk_deploy_CrossAccountPipelineStack env]).
  rewrite <- app_assoc. do 2 f_equal.
  destruct (key_arn_in w) as [|c K] eqn:EK.
  - reflexivity.
  - rewrite exec_check_nonempty by discriminate.
    rewrite trace_emit, launched_app, List.filter_app.
    rewrite commit_and_cleanup_no_deploy, app_nil_r. reflexivity.
Qed.

Lemma deployments_whatever_the_status_witness :
  List.filter is_deploy
    (launched (trace (exec role_deploy_fails 0 no_files (automate_deployment env0))))
  = phase1_commands env0
    ++ [cdk_deploy_RepositoryStack; cdk_deploy_CrossAccountPipelineStack env0]
    ++ phase2_commands env0 "arn:aws:kms:us-west-2:111111111111:key/abc".
Proof.
  apply (deployments_whatever_the_status env0 role_deploy_fails no_files).
  repeat split; discriminate.
Defined.

(** *** The barrier after phase 1 *)

(** C1, as stated, fails: the three background deployments are never
    waited for. Here the script has run on to the launch of the
    deployment of the pipeline stack while none of them has ended. *)
Lemma no_barrier_after_phase1 :
  ~ (forall m,
        reachable all_fine no_files (automate_deployment env0) m ->
        phase1_barrier (log m)).
Proof.
  intros H.
  pose (tr := trace (exec all_fine 0 no_files (automate_deployment env0))).
  assert (Hsplit : tr = List.firstn 21 tr ++ List.skipn 21 tr)
    by (symmetry; apply List.firstn_skipn).
  specialize (H _ (reachable_script_prefix _ _ _ _ _ Hsplit)).
  cbn [log] in H.
  assert (Hlog : List.firstn 21 tr
                 = List.firstn 20 tr
                   ++ Started 10 false (cdk_deploy_CrossAccountPipelineStack env0)
                   :: [])
    by (vm_compute; reflexivity).
  destruct (H _ _ _ _ _ Hlog eq_refl 0) as (r & _ & Hr); [lia|].
  vm_compute in Hr.
  destruct Hr as [Hr | Hr];
    repeat (destruct Hr as [Hr | Hr]; [discriminate Hr|]); exact Hr.
Qed.

(** C1 (amended): in phase 1 the script launches the four role
    deployments, the first three as background jobs and the last one,
    [CloudFormationDeploymentRole] for Prod, in the foreground. Whenever a
    stack deployment ([cdk deploy]) is launched, all four have been
    launched before and the foreground one has returned (whatever its
    exit status). *)
Theorem phase1_launched_before_stacks env w fs m :
  accounts_set env ->
  reachable w fs (automate_deployment env) m ->
  forall l1 pid b c l2,
    log m = l1 ++ Started pid b c :: l2 ->
    is_cdk_deploy c = true ->
    In (Started 0 true (roles1_cross_uat env)) l1 /\
    In (Started 1 true (roles1_cfn_uat env)) l1 /\
    In (Started 2 true (roles1_cross_prod env)) l1 /\
    In (Started 3 false (roles1_cfn_prod env)) l1 /\
    In (Completed 3 (w 3)) l1.
Proof.
  intros Hacc Hm l1 pid b c l2 Hlog Hc.
  apply reachable_own in Hm.
  rewrite (exec_until_check _ _ _ Hacc), trace_emit in Hm.
  rewrite Hlog, own_app in Hm.
  change (own (Started pid b c :: l2)) with (Started pid b c :: own l2) in Hm.
  rewrite <- !app_assoc in Hm. simpl in Hm.
  pose (P1 := [Out "\nDeploying roles to UAT and Prod\n";
               Started 0 true (roles1_cross_uat env);
               Started 1 true (roles1_cfn_uat env);
               Started 2 true (roles1_cross_prod env);
               Started 3 false (roles1_cfn_prod env); Completed 3 (w 3)]).
  symmetry in Hm.
  destruct (prefix_before P1 _ _ _ _ Hm) as [l1' Hl1].
  - intros Hin. simpl in Hin.
    repeat (destruct Hin as [Hin | Hin];
            [first [discriminate Hin
                   | injection Hin as _ _ Hin; rewrite <- Hin in Hc;
                     discriminate Hc] |]).
    exact Hin.
  - assert (Hsub : forall e, In e P1 -> In e l1).
    { intros e He. apply own_incl. rewrite Hl1. apply in_or_app. left. exact He. }
    repeat split; apply Hsub; simpl; tauto.
Qed.

Lemma phase1_launched_before_stacks_witness :
  In (Completed 3 (all_fine 3))
     (List.firstn 20 (trace (exec all_fine 0 no_files (automate_deployment env0)))).
Proof.
  assert (Hacc : accounts_set env0) by (repeat split; discriminate).
  pose (tr := trace (exec all_fine 0 no_files (automate_deployment env0))).
  assert (Hsplit : tr = List.firstn 21 tr ++ List.skipn 21 tr)
    by (symmetry; apply List.firstn_skipn).
  assert (Hlog : List.firstn 21 tr
                 = List.firstn 20 tr
                   ++ Started 10 false (cdk_deploy_CrossAccountPipelineStack env0)
                   :: [])
    by (vm_compute; reflexivity).
  exact (proj2 (proj2 (proj2 (proj2
           (phase1_launched_before_stacks env0 all_fine no_files _ Hacc
              (reachable_script_prefix _ _ _ _ _ Hsplit)
              _ _ _ _ _ Hlog eq_refl))))).
Defined.

End BootstrapClaims.

(* ===================================================================== *)
(** ** Properties of the CDK stacks *)
(* ===================================================================== *)

Module AppFacts.
Import Text TextFacts Cdk.

(** *** The [||] chains of the app *)

Lemma js_or_falsy a b : truthy a = false -> js_or a b = b.
Proof. unfold js_or. intros ->. reflexivity. Qed.

Lemma js_or_truthy v b : v <> EmptyString -> js_or (Some v) b = Some v.
Proof. intros H. destruct v; [congruence | reflexivity]. Qed.

Lemma truthy_inv a : truthy a = true -> exists v, a = Some v /\ v <> EmptyString.
Proof.
  destruct a as [v|]; [|discriminate]. intros H. exists v. split; [reflexivity|].
  intros ->. discriminate H.
Qed.

(** A chain [c || i || d]. *)
Lemma chain_first c i d v :
  c = Some v -> v <> EmptyString -> js_or (js_or c i) d = Some v.
Proof. intros -> Hv. rewrite !(js_or_truthy v) by exact Hv. reflexivity. Qed.

Lemma chain_second c i d v :
  truthy c = false -> i = Some v -> v <> EmptyString ->
  js_or (js_or c i) d = Some v.
Proof.
  intros Hc -> Hv. rewrite (js_or_falsy c _ Hc). apply js_or_truthy, Hv.
Qed.

Lemma chain_third c i d :
  truthy c = false -> truthy i = false -> js_or (js_or c i) d = d.
Proof. intros Hc Hi. rewrite (js_or_falsy c _ Hc). apply js_or_falsy, Hi. Qed.

(** *** When the app returns *)

Lemma app_returns context process_env account u p :
  App.uatAccountId context process_env = Some u ->
  App.prodAccountId context process_env = Some p ->
  App.app context process_env account = Returns (App.assembly account u p).
Proof.
  intros Hu Hp. unfold App.app, PipelineStack.instantiate_v2.
  rewrite Hu, Hp. reflexivity.
Qed.

Lemma app_throws context process_env account :
  App.uatAccountId context process_env = None \/
  App.prodAccountId context process_env = None ->
  App.app context process_env account = Throws.
Proof.
  intros H. unfold App.app, PipelineStack.instantiate_v2.
  destruct H as [-> | ->]; [reflexivity|].
  destruct (App.uatAccountId context process_env); reflexivity.
Qed.

Lemma app_returned context process_env account a :
  App.app context process_env account = Returns a ->
  exists u p,
    App.uatAccountId context process_env = Some u /\
    App.prodAccountId context process_env = Some p /\
    a = App.assembly account u p.
Proof.
  intros H.
  destruct (App.uatAccountId context process_env) as [u|] eqn:Hu;
    [|rewrite app_throws in H by (left; exact Hu); discriminate H].
  destruct (App.prodAccountId context process_env) as [p|] eqn:Hp;
    [|rewrite app_throws in H by (right; exact Hp); discriminate H].
  rewrite (app_returns _ _ _ _ _ Hu Hp) in H. injection H as <-.
  exists u, p. repeat split.
Qed.

End AppFacts.

Module StackClaims.
Import Text TextFacts Cdk AppFacts.

(** *** The application stack *)

(** C10, as stated, fails for the empty stage name: the API is then
    deployed to the stage [prod], not to a stage of that name. *)
Lemma empty_stage_name_deploys_to_prod :
  deploymentStage_stageName
    (ApplicationStack.restApi
       (ApplicationStack.resources
          (ApplicationStack.new "ApplicationStack"
             {| ApplicationStack.props_stageName := EmptyString |})))
  = "prod" /\
  deploymentStage_stageName
    (ApplicationStack.restApi
       (ApplicationStack.resources
          (ApplicationStack.new "ApplicationStack"
             {| ApplicationStack.props_stageName := EmptyString |})))
  <> ApplicationStack.props_stageName
       {| ApplicationStack.props_stageName := EmptyString |}.
Proof. split; [reflexivity | discriminate]. Qed.

(** C10 (amended): for every stage name that is not empty, the
    [STAGE_NAME] variable of the function, the stage the API is deployed
    to and the name of the alias are that stage name; for the empty one
    the API is deployed to [prod]. The function is named [HelloLambda]
    whatever the stage; what two application stacks declare differs in
    the stage name only, so it is for the UAT and Prod stacks of the
    app. *)
Theorem application_stack_stage_name id props :
  let st := ApplicationStack.new id props in
  let r := ApplicationStack.resources st in
  (ApplicationStack.props_stageName props <> EmptyString ->
   environment (ApplicationStack.func r) !! "STAGE_NAME"
   = Some (ApplicationStack.props_stageName props) /\
   deploymentStage_stageName (ApplicationStack.restApi r)
   = ApplicationStack.props_stageName props /\
   aliasName (ApplicationStack.alias r) = ApplicationStack.props_stageName props) /\
  (ApplicationStack.props_stageName props = EmptyString ->
   deploymentStage_stageName (ApplicationStack.restApi r) = "prod") /\
  functionName (ApplicationStack.func r) = "HelloLambda" /\
  (forall id' props',
      ApplicationStack.resources (ApplicationStack.new id' props')
      = ApplicationStack.with_stage_name
          (ApplicationStack.props_stageName props') r) /\
  (forall context process_env account a,
      App.app context process_env account = Returns a ->
      ApplicationStack.resources (App.prodApplicationStack a)
      = ApplicationStack.with_stage_name "prod"
          (ApplicationStack.resources (App.uatApplicationStack a)) /\
      ApplicationStack.resources (App.uatApplicationStack a)
      = ApplicationStack.with_stage_name "uat"
          (ApplicationStack.resources (App.prodApplicationStack a))).
Proof.
  cbn zeta. split; [|split; [|split; [|split]]].
  - intros Hne. split; [apply lookup_singleton_eq|]. split; [|reflexivity].
    cbn. destruct (ApplicationStack.props_stageName props); [congruence | reflexivity].
  - intros Hempty. cbn. rewrite Hempty. reflexivity.
  - reflexivity.
  - intros id' props'. unfold ApplicationStack.with_stage_name. cbn.
    rewrite insert_singleton_eq. reflexivity.
  - intros context process_env account a Ha.
    destruct (app_returned _ _ _ _ Ha) as (u & p & _ & _ & ->).
    unfold ApplicationStack.with_stage_name. cbn.
    rewrite !insert_singleton_eq. split; reflexivity.
Qed.

Lemma application_stack_stage_name_witness :
  deploymentStage_stageName
    (ApplicationStack.restApi
       (ApplicationStack.resources
          (ApplicationStack.new "UatApplicationStack"
             {| ApplicationStack.props_stageName := "uat" |})))
  = "uat" /\
  ApplicationStack.resources
    (App.prodApplicationStack (App.assembly "111111111111" "222222222222" "333333333333"))
  = ApplicationStack.with_stage_name "prod"
      (ApplicationStack.resources
         (App.uatApplicationStack (App.assembly "111111111111" "222222222222" "333333333333"))).
Proof.
  pose proof (application_stack_stage_name "UatApplicationStack"
                {| ApplicationStack.props_stageName := "uat" |})
    as (Hstage & _ & _ & _ & Happ).
  split.
  - refine (proj1 (proj2 (Hstage _))). discriminate.
  - refine (proj1 (Happ App.bootstrap_context App.cli_env "111111111111" _ _)).
    reflexivity.
Defined.

(** *** The two pipeline stacks *)

(** C8: the two variants of [PipelineStack] declare the same constructs
    except for the [adminPermissions] flag of the CloudFormation deploy
    actions of [Deploy_Uat] and [Deploy_Prod]: [false] in the variant
    for [aws-cdk-lib], [true] in the one for [@aws-cdk/*]. *)
Theorem pipeline_variants_differ_in_adminPermissions id account props :
  PipelineStack.new_v1 id account props
  = PipelineStack.with_adminPermissions true (PipelineStack.new_v2 id account props) /\
  PipelineStack.new_v2 id account props
  = PipelineStack.with_adminPermissions false (PipelineStack.new_v1 id account props) /\
  PipelineStack.admin_flags "Deploy_Uat" (PipelineStack.new_v2 id account props) = [false] /\
  PipelineStack.admin_flags "Deploy_Prod" (PipelineStack.new_v2 id account props) = [false] /\
  PipelineStack.admin_flags "Deploy_Uat" (PipelineStack.new_v1 id account props) = [true] /\
  PipelineStack.admin_flags "Deploy_Prod" (PipelineStack.new_v1 id account props) = [true] /\
  PipelineStack.new_v1 id account props <> PipelineStack.new_v2 id account props.
Proof.
  split; [reflexivity|]. split; [reflexivity|].
  split; [reflexivity|]. split; [reflexivity|].
  split; [reflexivity|]. split; [reflexivity|].
  intros H. apply (f_equal (PipelineStack.admin_flags "Deploy_Uat")) in H.
  discriminate H.
Qed.

(** Run with the values a caller computes, the two variants stop or
    return alike: both throw when an account identifier is [undefined],
    and the stacks they return differ in the flag only. *)
Lemma variants_instantiate_alike id account uatApp uat prodApp prod :
  (PipelineStack.instantiate_v2 id account uatApp uat prodApp prod = Throws <->
   uat = None \/ prod = None) /\
  (PipelineStack.instantiate_v1 id account uatApp uat prodApp prod = Throws <->
   uat = None \/ prod = None) /\
  forall st2,
    PipelineStack.instantiate_v2 id account uatApp uat prodApp prod = Returns st2 ->
    PipelineStack.instantiate_v1 id account uatApp uat prodApp prod
    = Returns (PipelineStack.with_adminPermissions true st2).
Proof.
  unfold PipelineStack.instantiate_v2, PipelineStack.instantiate_v1.
  destruct uat as [u|], prod as [p|]; (split; [|split]);
    try (split; [intros H; discriminate H | intros [H | H]; discriminate H]);
    try (split; [intros _; auto | reflexivity]);
    try (intros st2 H; discriminate H).
  intros st2 H. injection H as <-. reflexivity.
Qed.

(** *** The output with the key *)

(** C7, as stated, fails: no output of the pipeline stack is named
    [KeyArn], neither by its id nor by its export name. *)
Lemma no_output_named_KeyArn :
  exists a,
    App.app App.bootstrap_context App.cli_env "111111111111" = Returns a /\
    ~ PipelineStack.publishes_key_arn_as "KeyArn" (App.pipelineStack a).
Proof.
  eexists. split; [reflexivity|].
  intros (o & Hin & _ & Hname). simpl in Hin.
  destruct Hin as [<- | []]. simpl in Hname.
  destruct Hname as [H | H]; discriminate H.
Qed.

(** C7 (amended): both variants of the pipeline stack publish the ARN of
    the key [ArtifactKey] as the output [ArtifactBucketEncryptionKeyArn]
    (export name [ArtifactBucketEncryptionKey]). The extraction looks
    for lines containing [KeyArn], which that name ends with: from an
    [Outputs:] section listing [<stack>.ArtifactBucketEncryptionKeyArn =
    <value>] it extracts the value. *)
Theorem key_arn_output id account props :
  PipelineStack.outputs (PipelineStack.new_v2 id account props)
  = [{| output_id := "ArtifactBucketEncryptionKeyArn";
        output_value := KeyArnOf "ArtifactKey";
        exportName := "ArtifactBucketEncryptionKey" |}] /\
  PipelineStack.outputs (PipelineStack.new_v1 id account props)
  = PipelineStack.outputs (PipelineStack.new_v2 id account props) /\
  key_id (PipelineStack.key (PipelineStack.new_v2 id account props)) = "ArtifactKey" /\
  contains "KeyArn" "ArtifactBucketEncryptionKeyArn" = true /\
  forall o text pre post stack value,
    In o (PipelineStack.outputs (PipelineStack.new_v2 id account props)) ->
    lines text
    = pre ++ "Outputs:" :: (stack +:+ "." +:+ output_id o +:+ " = " +:+ value)
          :: EmptyString :: post ->
    Forall (fun x => contains "Outputs:" x = false) pre ->
    Forall (fun x => contains "Outputs:" x = false) post ->
    no_blank stack -> no_blank value ->
    extract_key_arn text = value.
Proof.
  split; [reflexivity|]. split; [reflexivity|].
  split; [reflexivity|]. split; [reflexivity|].
  intros o text pre post stack value Hin Hlines Hpre Hpost Hs Hv.
  simpl in Hin. destruct Hin as [<- | []]. simpl in Hlines.
  set (name := stack +:+ "." +:+ "ArtifactBucketEncryptionKeyArn").
  assert (Hline : stack +:+ "." +:+ "ArtifactBucketEncryptionKeyArn" +:+ " = " +:+ value
                  = name +:+ " = " +:+ value).
  { unfold name. rewrite append_assoc. reflexivity. }
  rewrite Hline in Hlines.
  assert (Hname : no_blank name).
  { unfold name. apply no_blank_append; [exact Hs | reflexivity]. }
  assert (Hne : name <> EmptyString).
  { unfold name. destruct stack; discriminate. }
  rewrite <- (field3_assignment name value Hname Hne Hv).
  apply (KeyArn.single_region_extraction text pre "Outputs:"
           [name +:+ " = " +:+ value] post ["Outputs:"] _ []).
  - exact Hlines.
  - exact Hpre.
  - reflexivity.
  - constructor; [|constructor].
    destruct name; [congruence | discriminate].
  - exact Hpost.
  - reflexivity.
  - repeat constructor.
  - apply contains_append_r. unfold name.
    apply contains_append_l. reflexivity.
  - constructor.
Qed.

Lemma key_arn_output_witness :
  extract_key_arn Samples.pipeline_output
  = "arn:aws:kms:us-west-2:111111111111:key/abc".
Proof.
  pose proof (key_arn_output "CrossAccountPipelineStack" "111111111111"
                (PipelineStack.Build_PipelineStackProps
                   (ApplicationStack.new "UatApplicationStack"
                      {| ApplicationStack.props_stageName := "uat" |})
                   "222222222222"
                   (ApplicationStack.new "ProdApplicationStack"
                      {| ApplicationStack.props_stageName := "prod" |})
                   "333333333333"))
    as (_ & _ & _ & _ & H).
  refine (H _ Samples.pipeline_output
            [" CrossAccountPipelineStack"; ""]
            ["Stack ARN:";
             "arn:aws:cloudformation:us-west-2:111111111111:stack/CrossAccountPipelineStack/1"]
            "CrossAccountPipelineStack"
            "arn:aws:kms:us-west-2:111111111111:key/abc"
            _ _ _ _ _ _).
  - left. reflexivity.
  - reflexivity.
  - repeat constructor.
  - repeat constructor.
  - reflexivity.
  - reflexivity.
Defined.

(** *** The accounts of the app *)

(** C9, as stated, fails: synthesized without the two context values and
    with neither [CDK_INTEG_ACCOUNT] nor [CDK_DEFAULT_ACCOUNT] in the
    environment, the identifiers are [undefined] and the construction of
    the pipeline stack throws. *)
Lemma construction_fails_without_any_account :
  (∅ : gmap string string) !! "uat-account" = None /\
  (∅ : gmap string string) !! "prod-account" = None /\
  App.uatAccountId ∅ ∅ = None /\
  App.prodAccountId ∅ ∅ = None /\
  App.app ∅ ∅ "111111111111" = Throws.
Proof. repeat split. Qed.

(** C9 (amended): without the context value [uat-account] (respectively
    [prod-account]) the account identifier is [CDK_INTEG_ACCOUNT] if
    that is set and not empty, otherwise [CDK_DEFAULT_ACCOUNT]. When
    this names an account, the construction does not fail, and the roles
    the pipeline assumes for UAT (respectively Prod) and the principal
    granted on the key are in that account: the tools account itself
    when [CDK_DEFAULT_ACCOUNT] is the account of the pipeline stack.
    When neither variable names an account, the construction throws. *)
Theorem missing_context_falls_back context process_env account :
  let INTEG := process_env !! "CDK_INTEG_ACCOUNT" in
  let DEFAULT := process_env !! "CDK_DEFAULT_ACCOUNT" in
  let no_INTEG := INTEG = None \/ INTEG = Some EmptyString in
  (context !! "uat-account" = None ->
   (forall i, INTEG = Some i -> i <> EmptyString ->
              App.uatAccountId context process_env = Some i) /\
   (no_INTEG -> App.uatAccountId context process_env = DEFAULT)) /\
  (context !! "prod-account" = None ->
   (forall i, INTEG = Some i -> i <> EmptyString ->
              App.prodAccountId context process_env = Some i) /\
   (no_INTEG -> App.prodAccountId context process_env = DEFAULT)) /\
  (forall d, d <> EmptyString ->
     INTEG = Some d \/ (no_INTEG /\ DEFAULT = Some d) ->
     exists a,
       App.app context process_env account = Returns a /\
       (context !! "uat-account" = None ->
        roleArn (PipelineStack.uatCloudFormationRole (App.pipelineStack a))
        = "arn:aws:iam::" +:+ d +:+ ":role/CloudFormationDeploymentRole" /\
        roleArn (PipelineStack.uatCodePipelineRole (App.pipelineStack a))
        = "arn:aws:iam::" +:+ d +:+ ":role/CodePipelineCrossAccountRole" /\
        nth_error (decrypt_grants (PipelineStack.key (App.pipelineStack a))) 0
        = Some (AccountPrincipal d)) /\
       (context !! "prod-account" = None ->
        roleArn (PipelineStack.prodCloudFormationRole (App.pipelineStack a))
        = "arn:aws:iam::" +:+ d +:+ ":role/CloudFormationDeploymentRole" /\
        roleArn (PipelineStack.prodCodeDeployRole (App.pipelineStack a))
        = "arn:aws:iam::" +:+ d +:+ ":role/CodePipelineCrossAccountRole" /\
        nth_error (decrypt_grants (PipelineStack.key (App.pipelineStack a))) 2
        = Some (AccountPrincipal d))) /\
  (no_INTEG -> DEFAULT = None ->
   context !! "uat-account" = None \/ context !! "prod-account" = None ->
   App.app context process_env account = Throws).
Proof.
  cbn zeta.
  assert (Hno : process_env !! "CDK_INTEG_ACCOUNT" = None \/
                process_env !! "CDK_INTEG_ACCOUNT" = Some EmptyString ->
                truthy (process_env !! "CDK_INTEG_ACCOUNT") = false).
  { intros [-> | ->]; reflexivity. }
  split; [|split; [|split]].
  - intros Hctx. split.
    + intros i Hi Hne. unfold App.uatAccountId, App.tryGetContext.
      apply chain_second; [rewrite Hctx; reflexivity | exact Hi | exact Hne].
    + intros Hi. unfold App.uatAccountId, App.tryGetContext.
      apply chain_third; [rewrite Hctx; reflexivity | exact (Hno Hi)].
  - intros Hctx. split.
    + intros i Hi Hne. unfold App.prodAccountId, App.tryGetContext.
      apply chain_second; [rewrite Hctx; reflexivity | exact Hi | exact Hne].
    + intros Hi. unfold App.prodAccountId, App.tryGetContext.
      apply chain_third; [rewrite Hctx; reflexivity | exact (Hno Hi)].
  - intros d Hd Henv.
    assert (Hany : forall c, exists r,
               js_or (js_or c (process_env !! "CDK_INTEG_ACCOUNT"))
                     (process_env !! "CDK_DEFAULT_ACCOUNT") = Some r /\
               (c = None -> r = d)).
    { intros c. destruct Henv as [Hi | [Hi Hdef]].
      - destruct (truthy c) eqn:Hc.
        + destruct (truthy_inv _ Hc) as (r & -> & Hr). exists r.
          split; [apply chain_first; auto | discriminate].
        + exists d. split; [apply chain_second; auto | reflexivity].
      - destruct (truthy c) eqn:Hc.
        + destruct (truthy_inv _ Hc) as (r & -> & Hr). exists r.
          split; [apply chain_first; auto | discriminate].
        + exists d. split; [|reflexivity].
          rewrite chain_third by auto. exact Hdef. }
    destruct (Hany (context !! "uat-account")) as (u & Hu & Hud).
    destruct (Hany (context !! "prod-account")) as (p & Hp & Hpd).
    exists (App.assembly account u p). split; [apply app_returns; assumption|].
    split.
    + intros Hctx. rewrite (Hud Hctx). repeat split.
    + intros Hctx. rewrite (Hpd Hctx). repeat split.
  - intros Hi Hdef Hctx. apply app_throws.
    destruct Hctx as [Hctx | Hctx]; [left | right].
    + unfold App.uatAccountId, App.tryGetContext.
      rewrite chain_third; [exact Hdef | rewrite Hctx; reflexivity | exact (Hno Hi)].
    + unfold App.prodAccountId, App.tryGetContext.
      rewrite chain_third; [exact Hdef | rewrite Hctx; reflexivity | exact (Hno Hi)].
Qed.

Lemma missing_context_falls_back_witness :
  App.uatAccountId ∅ {[ "CDK_INTEG_ACCOUNT" := "444444444444";
                        "CDK_DEFAULT_ACCOUNT" := "111111111111" ]}
  = Some "444444444444" /\
  (exists a,
      App.app ∅ App.cli_env "111111111111" = Returns a /\
      roleArn (PipelineStack.uatCloudFormationRole (App.pipelineStack a))
      = "arn:aws:iam::111111111111:role/CloudFormationDeploymentRole" /\
      roleArn (PipelineStack.prodCodeDeployRole (App.pipelineStack a))
      = "arn:aws:iam::111111111111:role/CodePipelineCrossAccountRole") /\
  App.app ∅ (∅ : gmap string string) "111111111111" = Throws.
Proof.
  split; [|split].
  - destruct (missing_context_falls_back ∅
                {[ "CDK_INTEG_ACCOUNT" := "444444444444";
                   "CDK_DEFAULT_ACCOUNT" := "111111111111" ]} "111111111111")
      as [Huat _].
    destruct (Huat eq_refl) as [Hinteg _].
    apply (Hinteg "444444444444"); [reflexivity | discriminate].
  - destruct (missing_context_falls_back ∅ App.cli_env "111111111111")
      as (_ & _ & Hbuilt & _).
    destruct (Hbuilt "111111111111") as (a & Ha & Huat & Hprod);
      [discriminate | right; split; [left; reflexivity | reflexivity] |].
    exists a. split; [exact Ha|].
    split; [exact (proj1 (Huat eq_refl)) | exact (proj1 (proj2 (Hprod eq_refl)))].
  - destruct (missing_context_falls_back ∅ ∅ "111111111111")
      as (_ & _ & _ & Hthrows).
    apply Hthrows; [left; reflexivity | reflexivity | left; reflexivity].
Defined.

(** With the context the bootstrap script passes, the roles the pipeline
    stack refers to are those the role deployments of the script create. *)
Lemma pipeline_roles_are_the_deployed_roles env context process_env account :
  Bootstrap.accounts_set env ->
  context !! "uat-account" = Some (Shell.expand (Bootstrap.UAT_ACCOUNT_ID env)) ->
  context !! "prod-account" = Some (Shell.expand (Bootstrap.PROD_ACCOUNT_ID env)) ->
  exists a,
    App.app context process_env account = Returns a /\
    map (Bootstrap.role_identifier env) (Bootstrap.phase1_commands env)
    = [roleArn (PipelineStack.uatCodePipelineRole (App.pipelineStack a));
       roleArn (PipelineStack.uatCloudFormationRole (App.pipelineStack a));
       roleArn (PipelineStack.prodCodeDeployRole (App.pipelineStack a));
       roleArn (PipelineStack.prodCloudFormationRole (App.pipelineStack a))].
Proof.
  intros (_ & Hu & Hp) Hcu Hcp.
  eexists. split.
  - apply app_returns.
    + unfold App.uatAccountId, App.tryGetContext.
      apply chain_first; [exact Hcu | exact Hu].
    + unfold App.prodAccountId, App.tryGetContext.
      apply chain_first; [exact Hcp | exact Hp].
  - reflexivity.
Qed.

End StackClaims.

(* ===================================================================== *)
(** ** Properties of the teardown *)
(* ===================================================================== *)

Module TeardownFacts.
Import Text TextFacts Shell ShellFacts Teardown.

Lemma exec_teardown env w fs :
  expand (Bootstrap.TOOLS_ACCOUNT_ID env) <> EmptyString ->
  exec w 0 fs (teardown env)
  = {| trace := teardown_trace env w; final_files := fs; how := Ended |}.
Proof.
  intros H. unfold teardown, when.
  destruct (expand (Bootstrap.TOOLS_ACCOUNT_ID env)); [congruence|].
  reflexivity.
Qed.

Lemma exec_teardown_unset env w fs :
  expand (Bootstrap.TOOLS_ACCOUNT_ID env) = EmptyString ->
  exec w 0 fs (teardown env)
  = {| trace := [Out "Please set TOOLS_ACCOUNT_ID, UAT_ACCOUNT_ID, and PROD_ACCOUNT_ID";
                 Out "TOOLS_ACCOUNT_ID ="];
       final_files := fs; how := Exited |}.
Proof. intros H. unfold teardown, when. rewrite H. reflexivity. Qed.

(** X1: the teardown reads [TOOLS_ACCOUNT_ID] only. Without it nothing is
    launched. With it, the nine commands are launched in script order and
    the script runs to its end, whatever [UAT_ACCOUNT_ID] and
    [PROD_ACCOUNT_ID] are and however the commands end: a failed deletion
    stops nothing. *)
Theorem teardown_needs_only_tools env w fs :
  (expand (Bootstrap.TOOLS_ACCOUNT_ID env) = EmptyString ->
   launched (trace (exec w 0 fs (teardown env))) = [] /\
   how (exec w 0 fs (teardown env)) = Exited) /\
  (expand (Bootstrap.TOOLS_ACCOUNT_ID env) <> EmptyString ->
   launched (trace (exec w 0 fs (teardown env))) = teardown_commands env /\
   how (exec w 0 fs (teardown env)) = Ended /\
   forall env' w' fs',
     Bootstrap.TOOLS_ACCOUNT_ID env' = Bootstrap.TOOLS_ACCOUNT_ID env ->
     launched (trace (exec w' 0 fs' (teardown env')))
     = launched (trace (exec w 0 fs (teardown env)))).
Proof.
  split.
  - intros H. rewrite (exec_teardown_unset _ _ _ H). split; reflexivity.
  - intros H. rewrite (exec_teardown _ _ _ H).
    split; [reflexivity|]. split; [reflexivity|].
    intros env' w' fs' Henv.
    rewrite exec_teardown by (rewrite Henv; exact H).
    cbn [trace launched teardown_trace].
    unfold s3_rm_artifacts. rewrite Henv. reflexivity.
Qed.

Lemma teardown_needs_only_tools_witness :
  launched (trace (exec Bootstrap.role_deploy_fails 0 Bootstrap.no_files
                        (teardown {| Bootstrap.TOOLS_ACCOUNT_ID := Some "111111111111";
                                     Bootstrap.UAT_ACCOUNT_ID := None;
                                     Bootstrap.PROD_ACCOUNT_ID := None |})))
  = teardown_commands Bootstrap.env0.
Proof.
  refine (proj1 (proj2 (teardown_needs_only_tools _ _ _) _)).
  discriminate.
Defined.

(** X2: the order the teardown keeps, whenever the background deletions
    end: the pipeline stack is destroyed only after the two application
    stack deletions have been requested and the emptying of the artifact
    bucket has returned; the repository stack is destroyed only after the
    destruction of the pipeline stack has returned and the four role
    deletions have been requested. *)
Theorem teardown_order env w fs m :
  expand (Bootstrap.TOOLS_ACCOUNT_ID env) <> EmptyString ->
  reachable w fs (teardown env) m ->
  forall l1 pid b c l2,
    log m = l1 ++ Started pid b c :: l2 ->
    (c = cdk_destroy_pipeline ->
     In (Started 0 true delete_uat_application) l1 /\
     In (Started 1 true delete_prod_application) l1 /\
     In (Started 2 false (s3_rm_artifacts env)) l1 /\
     In (Completed 2 (w 2)) l1) /\
    (c = cdk_destroy_repository ->
     In (Completed 3 (w 3)) l1 /\
     Forall (fun d => exists p, In (Started p true d) l1) role_deletions).
Proof.
  intros HT Hm l1 pid b c l2 Hlog.
  apply reachable_own in Hm.
  rewrite (exec_teardown _ _ _ HT) in Hm. cbn [trace] in Hm.
  rewrite Hlog, own_app in Hm.
  change (own (Started pid b c :: l2)) with (Started pid b c :: own l2) in Hm.
  rewrite <- app_assoc in Hm. simpl in Hm. symmetry in Hm.
  split; intros ->.
  - destruct (prefix_before (List.firstn 4 (teardown_trace env w)) _ _ _ _ Hm)
      as [l1' Hl1].
    + simpl. intros Hin.
      repeat (destruct Hin as [Hin | Hin];
              [first [discriminate Hin
                     | injection Hin as _ _ Hin;
                       apply (f_equal (fun a : argv => nth 1 a EmptyString)) in Hin;
                       lazy in Hin; discriminate Hin] |]).
      exact Hin.
    + assert (Hsub : forall e, In e (List.firstn 4 (teardown_trace env w)) -> In e l1).
      { intros e He. apply own_incl. rewrite Hl1. apply in_or_app. left. exact He. }
      repeat split; apply Hsub; simpl; tauto.
  - destruct (prefix_before (List.firstn 10 (teardown_trace env w)) _ _ _ _ Hm)
      as [l1' Hl1].
    + simpl. intros Hin.
      repeat (destruct Hin as [Hin | Hin];
              [first [discriminate Hin
                     | injection Hin as _ _ Hin;
                       first [ apply (f_equal (fun a : argv => nth 1 a EmptyString)) in Hin;
                               lazy in Hin; discriminate Hin
                             | apply (f_equal (fun a : argv => nth 2 a EmptyString)) in Hin;
                               lazy in Hin; discriminate Hin ] ] |]).
      exact Hin.
    + assert (Hsub : forall e, In e (List.firstn 10 (teardown_trace env w)) -> In e l1).
      { intros e He. apply own_incl. rewrite Hl1. apply in_or_app. left. exact He. }
      split; [apply Hsub; simpl; tauto|].
      repeat constructor; eexists; apply Hsub; simpl; tauto.
Qed.

Lemma teardown_order_witness :
  In (Completed 2 (Bootstrap.all_fine 2))
     (List.firstn 4 (teardown_trace Bootstrap.env0 Bootstrap.all_fine)).
Proof.
  assert (HT : expand (Bootstrap.TOOLS_ACCOUNT_ID Bootstrap.env0) <> EmptyString)
    by discriminate.
  pose (tr := trace (exec Bootstrap.all_fine 0 Bootstrap.no_files
                          (teardown Bootstrap.env0))).
  assert (Hsplit : tr = List.firstn 5 tr ++ List.skipn 5 tr)
    by (symmetry; apply List.firstn_skipn).
  assert (Hlog : List.firstn 5 tr
                 = List.firstn 4 (teardown_trace Bootstrap.env0 Bootstrap.all_fine)
                   ++ Started 3 false cdk_destroy_pipeline :: [])
    by (vm_compute; reflexivity).
  destruct (teardown_order Bootstrap.env0 Bootstrap.all_fine Bootstrap.no_files _ HT
              (reachable_script_prefix _ _ _ _ _ Hsplit) _ _ _ _ _ Hlog)
    as [H _].
  exact (proj2 (proj2 (proj2 (H eq_refl)))).
Defined.

End TeardownFacts.

(* ===================================================================== *)
(** ** How the scripts and the stacks fit together *)
(* ===================================================================== *)

Module WiringFacts.
Import Text TextFacts Shell Cdk Wiring AppFacts.

(** *** Patterns *)

Lemma glob_star_unfold pat s :
  glob (String "*" pat) s
  = glob pat s || match s with
                  | EmptyString => false
                  | String _ s' => glob (String "*" pat) s'
                  end.
Proof. destruct s; reflexivity. Qed.

Lemma glob_star_any s : glob "*" s = true.
Proof.
  induction s as [|c s IH]; [reflexivity|].
  rewrite glob_star_unfold. rewrite IH. apply orb_true_r.
Qed.

(** Any text matches itself, whatever follows on both sides. *)
Lemma glob_self_prefix x q t :
  glob q t = true -> glob (x +:+ q) (x +:+ t) = true.
Proof.
  intros H. induction x as [|c x IH]; [exact H|].
  rewrite !append_cons.
  destruct (Ascii.eqb c "*") eqn:Ec.
  - apply Ascii.eqb_eq in Ec. subst c.
    rewrite glob_star_unfold, glob_star_unfold, IH, orb_true_r. reflexivity.
  - simpl. rewrite Ec, Ascii.eqb_refl, orb_true_r. exact IH.
Qed.

(** A literal glued to a value without blanks is one word. *)
Lemma word_glued lit v :
  lit <> EmptyString -> no_blank lit -> no_blank v ->
  word (lit +:+ v) = [lit +:+ v].
Proof.
  intros Hne Hl Hv. unfold word.
  rewrite fields_no_blank_word by (apply no_blank_append; assumption).
  destruct lit; [congruence | reflexivity].
Qed.

(** *** Teardown against bootstrap and stacks *)



(** X4: with the pipeline stack deployed in the tools account: the bucket the
    teardown empties is the artifact bucket of the stack, and the
    repository the bootstrap pushes to is the one the Source stage of the
    pipeline reads. *)
Theorem names_agree_on_the_tools_account env id props :
  no_blank (expand (Bootstrap.TOOLS_ACCOUNT_ID env)) ->
  let T := expand (Bootstrap.TOOLS_ACCOUNT_ID env) in
  let st := PipelineStack.new_v2 id T props in
  Teardown.s3_rm_artifacts env
  = ["aws"; "s3"; "rm"; "s3://" +:+ bucketName (PipelineStack.bucket st);
     "--recursive"; "--profile"; "pipeline"] /\
  Bootstrap.git_remote_add env
  = ["git"; "remote"; "add"; "origin";
     "https://git-codecommit.us-west-2.amazonaws.com/v1/repos/"
     +:+ repositoryName (PipelineStack.repository st)] /\
  In (CodeCommitSourceAction "CodeCommit_Source"
        (repo_id (PipelineStack.repository st)) None "main")
     (all_actions st) /\
  List.last (Bootstrap.git_push) EmptyString = "main".
Proof.
  intros HT. cbn zeta. split; [|split; [|split]].
  - unfold Teardown.s3_rm_artifacts.
    rewrite (word_glued "s3://artifact-bucket-"); [reflexivity|discriminate|reflexivity|exact HT].
  - unfold Bootstrap.git_remote_add.
    rewrite (word_glued "https://git-codecommit.us-west-2.amazonaws.com/v1/repos/repo-");
      [reflexivity|discriminate|reflexivity|exact HT].
  - left. reflexivity.
  - reflexivity.
Qed.

Lemma names_agree_on_the_tools_account_witness :
  Teardown.s3_rm_artifacts Bootstrap.env0
  = ["aws"; "s3"; "rm"; "s3://artifact-bucket-111111111111";
     "--recursive"; "--profile"; "pipeline"].
Proof.
  refine (proj1 (names_agree_on_the_tools_account Bootstrap.env0
                   "CrossAccountPipelineStack"
                   (PipelineStack.Build_PipelineStackProps
                      (ApplicationStack.new "UatApplicationStack"
                         {| ApplicationStack.props_stageName := "uat" |})
                      "222222222222"
                      (ApplicationStack.new "ProdApplicationStack"
                         {| ApplicationStack.props_stageName := "prod" |})
                      "333333333333") _)).
  reflexivity.
Defined.

(** X5: the bootstrap hands the two account identifiers to the app as
    context values, and with them the roles the pipeline stack imports
    are, account by account, roles named after the stacks the bootstrap
    deploys under the profile of that account. *)
Theorem pipeline_imports_the_deployed_roles env context process_env account :
  Bootstrap.accounts_set env ->
  no_blank (expand (Bootstrap.UAT_ACCOUNT_ID env)) ->
  no_blank (expand (Bootstrap.PROD_ACCOUNT_ID env)) ->
  let U := expand (Bootstrap.UAT_ACCOUNT_ID env) in
  let P := expand (Bootstrap.PROD_ACCOUNT_ID env) in
  option_values "--context" (Bootstrap.cdk_deploy_CrossAccountPipelineStack env)
  = ["prod-account=" +:+ P; "uat-account=" +:+ U] /\
  (context !! "uat-account" = Some U ->
   context !! "prod-account" = Some P ->
   exists a,
     App.app context process_env account = Returns a /\
     let st := App.pipelineStack a in
     map (fun c => (Bootstrap.option_value "--profile" c,
                    "arn:aws:iam::"
                    +:+ Bootstrap.account_of_profile env (Bootstrap.option_value "--profile" c)
                    +:+ ":role/" +:+ Bootstrap.option_value "--stack-name" c))
         (Bootstrap.phase1_commands env)
     = [("uat", roleArn (PipelineStack.uatCodePipelineRole st));
        ("uat", roleArn (PipelineStack.uatCloudFormationRole st));
        ("prod", roleArn (PipelineStack.prodCodeDeployRole st));
        ("prod", roleArn (PipelineStack.prodCloudFormationRole st))]).
Proof.
  intros (_ & Hu & Hp) HbU HbP. cbn zeta. split.
  - unfold Bootstrap.cdk_deploy_CrossAccountPipelineStack.
    rewrite (word_glued "prod-account="), (word_glued "uat-account=");
      try assumption; try reflexivity; try discriminate.
  - intros Hcu Hcp.
    assert (Huat : App.uatAccountId context process_env
                   = Some (expand (Bootstrap.UAT_ACCOUNT_ID env))).
    { unfold App.uatAccountId, App.tryGetContext.
      apply chain_first; [exact Hcu | exact Hu]. }
    assert (Hprod : App.prodAccountId context process_env
                    = Some (expand (Bootstrap.PROD_ACCOUNT_ID env))).
    { unfold App.prodAccountId, App.tryGetContext.
      apply chain_first; [exact Hcp | exact Hp]. }
    eexists. split; [apply (app_returns _ _ _ _ _ Huat Hprod) | reflexivity].
Qed.

Lemma pipeline_imports_the_deployed_roles_witness :
  option_values "--context" (Bootstrap.cdk_deploy_CrossAccountPipelineStack Bootstrap.env0)
  = ["prod-account=333333333333"; "uat-account=222222222222"].
Proof.
  refine (proj1 (pipeline_imports_the_deployed_roles Bootstrap.env0
                   App.bootstrap_context App.cli_env "111111111111" _ _ _)).
  - repeat split; discriminate.
  - reflexivity.
  - reflexivity.
Defined.

(** X6: the two [cdk deploy] commands of the bootstrap pass no [--profile]
    option: the word in front of [pipeline] does not start with [--].
    Every role deployment of the bootstrap and both [cdk destroy]
    commands of the teardown do pass one. *)
Theorem bootstrap_cdk_deploys_pass_no_profile env :
  no_blank (expand (Bootstrap.UAT_ACCOUNT_ID env)) ->
  no_blank (expand (Bootstrap.PROD_ACCOUNT_ID env)) ->
  ~ In "--profile" Bootstrap.cdk_deploy_RepositoryStack /\
  ~ In "--profile" (Bootstrap.cdk_deploy_CrossAccountPipelineStack env) /\
  Forall (fun c => In "--profile" c)
         (Bootstrap.phase1_commands env
          ++ [Teardown.cdk_destroy_pipeline; Teardown.cdk_destroy_repository]) /\
  map (Bootstrap.option_value "--profile")
      [Teardown.cdk_destroy_pipeline; Teardown.cdk_destroy_repository]
  = ["pipeline"; "pipeline"].
Proof.
  intros HU HP. split; [|split; [|split]].
  - unfold Bootstrap.cdk_deploy_RepositoryStack. simpl.
    intros H. repeat (destruct H as [H | H]; [discriminate H|]). exact H.
  - unfold Bootstrap.cdk_deploy_CrossAccountPipelineStack.
    rewrite (word_glued "prod-account="), (word_glued "uat-account=");
      try assumption; try reflexivity; try discriminate.
    simpl. intros H.
    repeat (destruct H as [H | H]; [discriminate H|]). exact H.
  - assert (Hin : forall pre post : list string,
               In "--profile" pre -> In "--profile" (pre ++ post))
      by (intros pre post H; apply in_or_app; left; exact H).
    unfold Bootstrap.phase1_commands.
    repeat (apply Forall_cons; split);
      try (apply Hin; do 9 right; left; reflexivity);
      try (do 3 right; left; reflexivity).
    apply Forall_nil. exact I.
  - reflexivity.
Qed.

Lemma bootstrap_cdk_deploys_pass_no_profile_witness :
  ~ In "--profile" (Bootstrap.cdk_deploy_CrossAccountPipelineStack Bootstrap.env0).
Proof.
  refine (proj1 (proj2 (bootstrap_cdk_deploys_pass_no_profile Bootstrap.env0 _ _)));
    reflexivity.
Defined.

End WiringFacts.

(* ===================================================================== *)
(** ** Properties of the declared pipeline and of the app *)
(* ===================================================================== *)

Module PipelineFacts.
Import Text TextFacts Cdk Wiring AppFacts WiringFacts.

Lemma may_assume_role st account name :
  role_policy (PipelineStack.pipeline st)
  = [{| statement_actions := ["sts:AssumeRole"];
        statement_resources :=
          ["arn:aws:iam::" +:+ fst account +:+ ":role/*";
           "arn:aws:iam::" +:+ snd account +:+ ":role/*"] |}] ->
  may_assume st ("arn:aws:iam::" +:+ fst account +:+ ":role/" +:+ name) /\
  may_assume st ("arn:aws:iam::" +:+ snd account +:+ ":role/" +:+ name).
Proof.
  intros Hpol. unfold may_assume. rewrite Hpol.
  split; eexists; eexists; (split; [left; reflexivity|]);
    (split; [left; reflexivity|]).
  - split; [left; reflexivity|].
    apply (glob_self_prefix "arn:aws:iam::").
    apply (glob_self_prefix (fst account)).
    apply (glob_self_prefix ":role/" "*"). apply glob_star_any.
  - split; [right; left; reflexivity|].
    apply (glob_self_prefix "arn:aws:iam::").
    apply (glob_self_prefix (snd account)).
    apply (glob_self_prefix ":role/" "*"). apply glob_star_any.
Qed.

(** X7: in both variants, every role a deploy action names is one of the
    four imported roles, imported as immutable, and the statement added
    to the policy of the pipeline's role allows assuming it, whatever
    strings the two account identifiers of the props are. *)
Theorem pipeline_may_assume_its_roles id account props :
  let ok st :=
    Forall (fun rid => exists r, role_by_id st rid = Some r /\
                                 mutable r = false /\
                                 may_assume st (roleArn r))
           (assumed_role_ids st) in
  ok (PipelineStack.new_v2 id account props) /\
  ok (PipelineStack.new_v1 id account props) /\
  assumed_role_ids (PipelineStack.new_v2 id account props)
  = ["UatCrossAccountRole"; "UatDeploymentRole";
     "ProdCrossAccountRole"; "ProdDeploymentRole"].
Proof.
  cbn zeta.
  pose proof (may_assume_role (PipelineStack.new_v2 id account props)
                (PipelineStack.uatAccountId props, PipelineStack.prodAccountId props))
    as H2.
  pose proof (may_assume_role (PipelineStack.new_v1 id account props)
                (PipelineStack.uatAccountId props, PipelineStack.prodAccountId props))
    as H1.
  split; [|split; [|reflexivity]].
  - repeat constructor; eexists; (split; [reflexivity|]); (split; [reflexivity|]);
      first [ apply (proj1 (H2 _ eq_refl)) | apply (proj2 (H2 _ eq_refl)) ].
  - repeat constructor; eexists; (split; [reflexivity|]); (split; [reflexivity|]);
      first [ apply (proj1 (H1 _ eq_refl)) | apply (proj2 (H1 _ eq_refl)) ].
Qed.

(** X8: in both variants the artifacts flow forward: the Source stage reads
    nothing, every later action reads only artifacts produced by an
    earlier stage, and the artifact a deploy action takes its parameter
    overrides from is among the inputs of that action. *)
Theorem pipeline_artifacts_flow_forward id account props :
  let ok st :=
    artifacts_flow [] (stages (PipelineStack.pipeline st)) = true /\
    forallb overrides_are_inputs (all_actions st) = true /\
    List.NoDup (flat_map action_outputs (all_actions st)) in
  ok (PipelineStack.new_v2 id account props) /\
  ok (PipelineStack.new_v1 id account props).
Proof.
  cbn zeta.
  assert (Hnodup : List.NoDup [None; Some "LambdaBuildOutput"; Some "CdkBuildOutput"]).
  { constructor; [simpl; intuition discriminate|].
    constructor; [simpl; intuition discriminate|].
    constructor; [simpl; tauto | constructor]. }
  split; (split; [reflexivity|]); (split; [reflexivity|]); exact Hnodup.
Qed.

(** X9: the templates the deploy stages read are the ones synthesis writes
    for the two application stacks of the app, [<stack id>.template.json],
    and the file pattern of the synthesis build project lets them, and
    not the templates of the repository and pipeline stacks, into its
    output artifact. *)
Theorem deploy_templates_are_the_app_stacks context process_env account a :
  App.app context process_env account = Returns a ->
  let st := App.pipelineStack a in
  map fst (deploy_templates st)
  = map (fun s => ApplicationStack.stack_id s +:+ ".template.json")
        [App.uatApplicationStack a; App.prodApplicationStack a] /\
  map snd (deploy_templates st)
  = map ApplicationStack.stack_id
        [App.uatApplicationStack a; App.prodApplicationStack a] /\
  Forall (fun file =>
            exists pat, In pat (artifact_files (PipelineStack.cdkBuild st)) /\
                        glob pat file = true)
         (map fst (deploy_templates st)) /\
  glob "*ApplicationStack.template.json"
       (App.repositoryStack a +:+ ".template.json") = false /\
  glob "*ApplicationStack.template.json"
       (PipelineStack.pstack_id st +:+ ".template.json") = false.
Proof.
  intros Ha. destruct (app_returned _ _ _ _ Ha) as (u & p & _ & _ & ->).
  cbn zeta. split; [reflexivity|]. split; [reflexivity|]. split.
  - repeat constructor; exists "*ApplicationStack.template.json";
      (split; [left; reflexivity | vm_compute; reflexivity]).
  - split; vm_compute; reflexivity.
Qed.

Lemma deploy_templates_are_the_app_stacks_witness :
  map fst (deploy_templates
             (App.pipelineStack
                (App.assembly "111111111111" "222222222222" "333333333333")))
  = ["UatApplicationStack.template.json"; "ProdApplicationStack.template.json"].
Proof.
  refine (proj1 (deploy_templates_are_the_app_stacks
                   App.bootstrap_context App.cli_env "111111111111" _ _)).
  reflexivity.
Defined.

(** *** The account identifiers of the app *)

(** X10: a non-empty context value wins over the environment; an empty one
    counts as missing. When the context gives neither account, both
    stages get the same identifier, so a pipeline stack that is built
    imports the same two roles for UAT and for Prod; and when nothing at
    all is set the identifier is [undefined] and the app throws instead
    of building the stack. *)
Theorem account_identifier_resolution context process_env account :
  (forall v, context !! "uat-account" = Some v -> v <> EmptyString ->
             App.uatAccountId context process_env = Some v) /\
  (forall v, context !! "prod-account" = Some v -> v <> EmptyString ->
             App.prodAccountId context process_env = Some v) /\
  (context !! "uat-account" = Some EmptyString ->
   App.uatAccountId context process_env
   = js_or (process_env !! "CDK_INTEG_ACCOUNT") (process_env !! "CDK_DEFAULT_ACCOUNT")) /\
  (truthy (context !! "uat-account") = false ->
   truthy (context !! "prod-account") = false ->
   App.uatAccountId context process_env = App.prodAccountId context process_env /\
   forall a, App.app context process_env account = Returns a ->
     roleArn (PipelineStack.uatCloudFormationRole (App.pipelineStack a))
     = roleArn (PipelineStack.prodCloudFormationRole (App.pipelineStack a)) /\
     roleArn (PipelineStack.uatCodePipelineRole (App.pipelineStack a))
     = roleArn (PipelineStack.prodCodeDeployRole (App.pipelineStack a))) /\
  (context !! "uat-account" = None ->
   process_env !! "CDK_INTEG_ACCOUNT" = None ->
   process_env !! "CDK_DEFAULT_ACCOUNT" = None ->
   App.uatAccountId context process_env = None /\
   App.app context process_env account = Throws).
Proof.
  split; [|split; [|split; [|split]]].
  - intros v Hc Hv. unfold App.uatAccountId, App.tryGetContext.
    apply chain_first; assumption.
  - intros v Hc Hv. unfold App.prodAccountId, App.tryGetContext.
    apply chain_first; assumption.
  - intros Hc. unfold App.uatAccountId, App.tryGetContext. rewrite Hc. reflexivity.
  - intros Hu Hp.
    assert (Heq : App.uatAccountId context process_env
                  = App.prodAccountId context process_env).
    { unfold App.uatAccountId, App.prodAccountId, App.tryGetContext.
      rewrite (js_or_falsy _ _ Hu), (js_or_falsy _ _ Hp). reflexivity. }
    split; [exact Heq|]. intros a Ha.
    destruct (app_returned _ _ _ _ Ha) as (u & p & Hau & Hap & ->).
    rewrite Heq, Hap in Hau. injection Hau as <-. split; reflexivity.
  - intros Hc Hi Hd.
    assert (Hid : App.uatAccountId context process_env = None).
    { unfold App.uatAccountId, App.tryGetContext. rewrite Hc, Hi, Hd. reflexivity. }
    split; [exact Hid|]. apply app_throws. left. exact Hid.
Qed.

Lemma account_identifier_resolution_witness :
  App.uatAccountId App.bootstrap_context App.cli_env = Some "222222222222" /\
  roleArn (PipelineStack.uatCloudFormationRole
             (App.pipelineStack
                (App.assembly "111111111111" "111111111111" "111111111111")))
  = roleArn (PipelineStack.prodCloudFormationRole
               (App.pipelineStack
                  (App.assembly "111111111111" "111111111111" "111111111111"))) /\
  App.app ∅ (∅ : gmap string string) "111111111111" = Throws.
Proof.
  pose proof (account_identifier_resolution App.bootstrap_context App.cli_env
                "111111111111") as (H1 & _).
  pose proof (account_identifier_resolution ∅ App.cli_env "111111111111")
    as (_ & _ & _ & H4 & _).
  pose proof (account_identifier_resolution ∅ ∅ "111111111111")
    as (_ & _ & _ & _ & H5).
  split; [|split].
  - apply H1; [reflexivity | discriminate].
  - exact (proj1 (proj2 (H4 eq_refl eq_refl) _ eq_refl)).
  - exact (proj2 (H5 eq_refl eq_refl eq_refl)).
Defined.

End PipelineFacts.

(* ===================================================================== *)
(** ** The bootstrap after the key check *)
(* ===================================================================== *)

Module RunFacts.
Import Text TextFacts Shell ShellFacts Bootstrap BootstrapFacts Chains.

Lemma exec_and_list w fs cs k :
  forall pid,
    exec w pid fs (and_list cs k)
    = emit (and_list_trace w pid cs)
           (exec w (pid + and_list_ran w pid cs) fs k).
Proof.
  induction cs as [|c cs IH]; intros pid.
  - simpl. rewrite Nat.add_0_r. destruct (exec w pid fs k); reflexivity.
  - simpl. destruct (Nat.eqb (status (w pid)) 0).
    + rewrite IH. rewrite <- Nat.add_succ_comm. reflexivity.
    + rewrite Nat.add_1_r. reflexivity.
Qed.

Lemma launched_and_list_trace w cs :
  forall pid, launched (and_list_trace w pid cs)
              = List.firstn (and_list_ran w pid cs) cs.
Proof.
  induction cs as [|c cs IH]; intros pid; [reflexivity|].
  simpl. destruct (Nat.eqb (status (w pid)) 0); [rewrite IH|]; reflexivity.
Qed.

(** The last part of the script, whatever number it starts at. *)
Lemma exec_commit_and_cleanup env w pid fs :
  let n1 := and_list_ran w pid commit_chain in
  let p := S (pid + n1) in
  let n3 := and_list_ran w p push_chain in
  launched (trace (exec w pid fs (commit_and_cleanup env)))
  = List.firstn n1 commit_chain ++ [git_remote_add env]
    ++ List.firstn n3 push_chain ++ [rm_outputs] /\
  how (exec w pid fs (commit_and_cleanup env)) = Ended /\
  final_files (exec w pid fs (commit_and_cleanup env)) = no_files.
Proof.
  cbn zeta. unfold commit_and_cleanup.
  cbn [printf exec].
  change (and_list [git_init; git_branch_main; git_add; git_commit; git_remote_rm])
    with (and_list commit_chain).
  change (and_list [git_config_remove; git_config_merge; git_push])
    with (and_list push_chain).
  rewrite exec_and_list. cbn [run exec].
  rewrite exec_and_list.
  set (n1 := and_list_ran w pid commit_chain).
  set (n3 := and_list_ran w (S (pid + n1)) push_chain).
  split; [|split; reflexivity].
  cbn [trace emit]. rewrite !launched_app, !launched_and_list_trace.
  reflexivity.
Qed.

Lemma In_firstn_In {A} (x : A) n l : In x (List.firstn n l) -> In x l.
Proof.
  revert n. induction l as [|y l IH]; intros [|n] H; simpl in *; try tauto.
  destruct H as [H | H]; [left; exact H | right; exact (IH _ H)].
Qed.

Lemma In_Started_launched p b c tr : In (Started p b c) tr -> In c (launched tr).
Proof.
  induction tr as [|e tr IH]; intros H; [destruct H|].
  destruct H as [H | H].
  - subst e. left. reflexivity.
  - destruct e; simpl; auto.
Qed.

(** The whole run once the key check has passed. *)
Lemma exec_with_key env w fs :
  accounts_set env ->
  key_arn_in w <> EmptyString ->
  exec w 0 fs (automate_deployment env)
  = emit (trace_before_check env w ++ trace_phase2 env w 13 (key_arn_in w))
         (exec w pid_commit (files_after_extraction w) (commit_and_cleanup env)).
Proof.
  intros Hacc HK.
  rewrite (exec_until_check _ _ _ Hacc), (exec_check_nonempty _ _ _ _ _ HK).
  unfold emit. cbn [trace final_files how]. rewrite app_assoc. reflexivity.
Qed.

(** X11: with the accounts set, the run does not depend on what the two local
    files held before. If the key is not empty the script runs to its last
    line, whichever commands fail, and leaves neither file behind; if the
    key is empty it exits and leaves both files where they are: the
    captured output, and a file whose lines are the selected ones. *)
Theorem bootstrap_ends_and_cleans_up env w fs :
  accounts_set env ->
  (forall fs', exec w 0 fs' (automate_deployment env)
               = exec w 0 fs (automate_deployment env)) /\
  (key_arn_in w <> EmptyString ->
   how (exec w 0 fs (automate_deployment env)) = Ended /\
   final_files (exec w 0 fs (automate_deployment env)) = no_files) /\
  (key_arn_in w = EmptyString ->
   how (exec w 0 fs (automate_deployment env)) = Exited /\
   exists selected,
     final_files (exec w 0 fs (automate_deployment env))
     = {| cdk_output_file := Some (stdout (w pid_pipeline));
          cfn_outputs_file := Some selected |} /\
     lines selected = sed_range false (lines (stdout (w pid_pipeline)))).
Proof.
  intros Hacc. split; [|split].
  - intros fs'. rewrite !(exec_until_check _ _ _ Hacc). reflexivity.
  - intros HK. rewrite (exec_with_key _ _ _ Hacc HK).
    destruct (exec_commit_and_cleanup env w pid_commit (files_after_extraction w))
      as (_ & Hhow & Hfiles).
    split; [exact Hhow | exact Hfiles].
  - intros HK. rewrite (exec_until_check _ _ _ Hacc), HK, exec_check_empty.
    split; [reflexivity|].
    exists (sed_Outputs (stdout (w pid_pipeline))).
    split; [reflexivity | apply lines_sed_Outputs].
Qed.

Lemma bootstrap_ends_and_cleans_up_witness :
  (how (exec role_deploy_fails 0 no_files (automate_deployment env0)) = Ended /\
   final_files (exec role_deploy_fails 0 no_files (automate_deployment env0)) = no_files) /\
  how (exec no_outputs 0 no_files (automate_deployment env0)) = Exited.
Proof.
  assert (Hacc : accounts_set env0) by (repeat split; discriminate).
  split.
  - refine (proj1 (proj2 (bootstrap_ends_and_cleans_up env0 role_deploy_fails
                            no_files Hacc)) _).
    vm_compute. discriminate.
  - refine (proj1 (proj2 (proj2 (bootstrap_ends_and_cleans_up env0 no_outputs
                                   no_files Hacc)) _)).
    vm_compute. reflexivity.
Defined.

(** Telling the commands of the script from [git push] and from the role
    deployments. *)
Ltac not_this_word n H :=
  apply (f_equal (fun c : argv => nth n c EmptyString)) in H;
  lazy in H; discriminate H.

Ltac not_in_list H :=
  repeat (destruct H as [H | H];
          [first [not_this_word 0 H | not_this_word 1 H]|]);
  try (destruct H; fail).

(** X12: once the key check has passed, [git push] is launched exactly when
    the two [git config] commands before it return 0. The list that makes
    the commit does not matter: it may fail at any command, the remote is
    still added, the first [git config] still runs, and the clean-up
    comes last in any case. *)
Theorem push_needs_only_the_two_configs env w fs :
  accounts_set env ->
  key_arn_in w <> EmptyString ->
  let L := launched (trace (exec w 0 fs (automate_deployment env))) in
  (In git_push L <->
   status (w (pid_config w)) = 0 /\ status (w (S (pid_config w))) = 0) /\
  In git_init L /\ In (git_remote_add env) L /\ In git_config_remove L /\
  List.last L [] = rm_outputs.
Proof.
  intros Hacc HK. cbn zeta.
  rewrite (exec_with_key _ _ _ Hacc HK). rewrite trace_emit, launched_app.
  destruct (exec_commit_and_cleanup env w pid_commit (files_after_extraction w))
    as (HL & _ & _).
  cbn zeta in HL. rewrite HL. clear HL.
  fold (pid_config w).
  set (L0 := launched (trace_before_check env w
                       ++ trace_phase2 env w 13 (key_arn_in w))).
  set (n1 := and_list_ran w pid_commit commit_chain).
  assert (Hn1 : exists k, n1 = S k) by (eexists; reflexivity).
  destruct Hn1 as [k1 Hn1].
  assert (HL0 : ~ In git_push L0).
  { unfold L0. rewrite launched_app.
    cbn [launched trace_before_check trace_phase2 app].
    intros H. not_in_list H. }
  assert (Hc1 : ~ In git_push (List.firstn n1 commit_chain)).
  { intros H. apply In_firstn_In in H. unfold commit_chain in H. not_in_list H. }
  assert (Hra : git_remote_add env <> git_push).
  { intros H. not_this_word 1 H. }
  split; [|split; [|split; [|split]]].
  - unfold push_chain. simpl and_list_ran.
    destruct (Nat.eqb (status (w (pid_config w))) 0) eqn:E0.
    + destruct (Nat.eqb (status (w (S (pid_config w)))) 0) eqn:E1.
      * apply Nat.eqb_eq in E0, E1. split; [tauto|]. intros _.
        apply in_or_app. right. apply in_or_app. right.
        apply in_or_app. right. apply in_or_app. left.
        simpl. auto.
      * apply Nat.eqb_eq in E0. apply Nat.eqb_neq in E1.
        split; [|tauto]. intros H. exfalso.
        apply in_app_or in H as [H | H]; [tauto|].
        apply in_app_or in H as [H | H]; [tauto|].
        apply in_app_or in H as [H | H]; [destruct H as [H | []]; tauto|].
        simpl in H. not_in_list H.
    + apply Nat.eqb_neq in E0. split; [|tauto]. intros H. exfalso.
      apply in_app_or in H as [H | H]; [tauto|].
      apply in_app_or in H as [H | H]; [tauto|].
      apply in_app_or in H as [H | H]; [destruct H as [H | []]; tauto|].
      simpl in H. not_in_list H.
  - apply in_or_app. right. apply in_or_app. left.
    rewrite Hn1. left. reflexivity.
  - apply in_or_app. right. apply in_or_app. right.
    apply in_or_app. left. left. reflexivity.
  - apply in_or_app. right. apply in_or_app. right.
    apply in_or_app. right. apply in_or_app. left.
    simpl. left. reflexivity.
  - rewrite !app_assoc. apply List.last_last.
Qed.

Lemma push_needs_only_the_two_configs_witness :
  In git_push (launched (trace (exec all_fine 0 no_files (automate_deployment env0)))).
Proof.
  assert (Hacc : accounts_set env0) by (repeat split; discriminate).
  assert (HK : key_arn_in all_fine <> EmptyString) by (vm_compute; discriminate).
  apply (proj1 (push_needs_only_the_two_configs env0 all_fine no_files Hacc HK)).
  split; reflexivity.
Defined.

(** No command of the last part of the script is a role deployment. *)
Lemma commit_and_cleanup_no_role_deploy env w pid fs c :
  In c (launched (trace (exec w pid fs (commit_and_cleanup env)))) ->
  is_role_deploy c = false.
Proof.
  destruct (exec_commit_and_cleanup env w pid fs) as (HL & _ & _).
  cbn zeta in HL. rewrite HL. clear HL. intros H.
  apply in_app_or in H as [H | H].
  { apply In_firstn_In in H. unfold commit_chain in H.
    repeat (destruct H as [H | H]; [subst c; reflexivity|]). destruct H. }
  apply in_app_or in H as [H | H].
  { destruct H as [H | []]. subst c. reflexivity. }
  apply in_app_or in H as [H | H].
  { apply In_firstn_In in H. unfold push_chain in H.
    repeat (destruct H as [H | H]; [subst c; reflexivity|]). destruct H. }
  destruct H as [H | []]. subst c. reflexivity.
Qed.

(** X13: the key reaches the roles only after the pipeline stack: whenever a
    role deployment other than those of phase 1 is launched, whatever
    the background jobs do, the deployment of the pipeline stack has
    returned before, the key extracted from its output is not empty, and
    the command is one of the four of phase 2 carrying that very key. *)
Theorem roles_get_the_key_after_the_pipeline env w fs m :
  accounts_set env ->
  reachable w fs (automate_deployment env) m ->
  forall l1 pid b c l2,
    log m = l1 ++ Started pid b c :: l2 ->
    is_role_deploy c = true ->
    ~ In c (phase1_commands env) ->
    In (Started pid_pipeline false (cdk_deploy_CrossAccountPipelineStack env)) l1 /\
    In (Completed pid_pipeline (w pid_pipeline)) l1 /\
    key_arn_in w <> EmptyString /\
    In c (phase2_commands env (key_arn_in w)).
Proof.
  intros Hacc Hm l1 pid b c l2 Hlog Hc Hnot.
  apply reachable_own in Hm.
  rewrite (exec_until_check _ _ _ Hacc), trace_emit in Hm.
  rewrite Hlog, own_app in Hm.
  change (own (Started pid b c :: l2)) with (Started pid b c :: own l2) in Hm.
  rewrite <- app_assoc, <- app_comm_cons in Hm. symmetry in Hm.
  destruct (prefix_before (trace_before_check env w) _ _ _ _ Hm) as [l1' Hl1].
  { intros Hin. unfold trace_before_check in Hin. simpl in Hin.
    repeat (destruct Hin as [Hin | Hin];
            [first [ discriminate Hin
                   | injection Hin as _ _ Hin; subst c;
                     first [ discriminate Hc
                           | apply Hnot; unfold phase1_commands; simpl; tauto ] ] |]).
    exact Hin. }
  assert (Hsub : forall e, In e (trace_before_check env w) -> In e l1).
  { intros e He. apply own_incl. rewrite Hl1. apply in_or_app. left. exact He. }
  split; [apply Hsub; unfold trace_before_check; simpl; tauto|].
  split; [apply Hsub; unfold trace_before_check; simpl; tauto|].
  rewrite Hl1, <- app_assoc in Hm. apply app_inv_head in Hm.
  assert (Hrest : In (Started pid b c)
                     (trace (exec w 13 (files_after_extraction w)
                                  (after_extraction env (key_arn_in w))))).
  { rewrite Hm. apply in_or_app. right. left. reflexivity. }
  clear Hm.
  destruct (key_arn_in w) as [|k K] eqn:EK.
  - rewrite exec_check_empty in Hrest. simpl in Hrest.
    destruct Hrest as [Hr | []]. discriminate Hr.
  - split; [discriminate|].
    rewrite exec_check_nonempty in Hrest by discriminate.
    rewrite trace_emit in Hrest. apply in_app_or in Hrest as [Hin | Hin].
    + unfold trace_phase2 in Hin. simpl in Hin. unfold phase2_commands.
      repeat (destruct Hin as [Hin | Hin];
              [first [ discriminate Hin
                     | injection Hin as _ _ Hin; subst c; simpl; tauto ] |]).
      destruct Hin.
    + apply In_Started_launched, commit_and_cleanup_no_role_deploy in Hin.
      rewrite Hin in Hc. discriminate Hc.
Qed.

Lemma roles_get_the_key_after_the_pipeline_witness :
  In (Completed pid_pipeline (all_fine pid_pipeline))
     (List.firstn 27 (trace (exec all_fine 0 no_files (automate_deployment env0)))).
Proof.
  assert (Hacc : accounts_set env0) by (repeat split; discriminate).
  pose (tr := trace (exec all_fine 0 no_files (automate_deployment env0))).
  assert (Hsplit : tr = List.firstn 28 tr ++ List.skipn 28 tr)
    by (symmetry; apply List.firstn_skipn).
  assert (Hlog : List.firstn 28 tr
                 = List.firstn 27 tr
                   ++ Started 13 true
                        (roles2_cross_uat env0 "arn:aws:kms:us-west-2:111111111111:key/abc")
                   :: [])
    by (vm_compute; reflexivity).
  refine (proj1 (proj2
            (roles_get_the_key_after_the_pipeline env0 all_fine no_files _ Hacc
               (reachable_script_prefix _ _ _ _ _ Hsplit)
               _ _ _ _ _ Hlog eq_refl _))).
  vm_compute. intros H.
  repeat (destruct H as [H | H]; [discriminate H|]). exact H.
Defined.

End RunFacts.

(* ===================================================================== *)
(** ** More on the extracted key *)
(* ===================================================================== *)

Module KeyArnFacts.
Import Text TextFacts Shell Bootstrap BootstrapFacts.

(** Whether a text is empty or starts with a blank. *)
Lemma fields_cons_nonblank c s :
  is_blank c = false ->
  fields (String c s)
  = if match s with EmptyString => true | String c' _ => is_blank c' end
    then String c EmptyString :: fields s
    else match fields s with
         | f :: fs => String c f :: fs
         | [] => [String c EmptyString]
         end.
Proof. intros Hc. destruct s; simpl; rewrite Hc; reflexivity. Qed.

Lemma strip_head s :
  match strip_trailing_newlines s with
  | EmptyString => true
  | String c' _ => is_blank c'
  end
  = match s with EmptyString => true | String c' _ => is_blank c' end.
Proof.
  destruct s as [|c s]; [reflexivity|]. simpl.
  destruct (Ascii.eqb c LF) eqn:Ec; [|reflexivity].
  apply Ascii.eqb_eq in Ec. subst c.
  destruct (is_empty (strip_trailing_newlines s)); reflexivity.
Qed.

(** Trailing newlines separate no field. *)
Lemma fields_strip s : fields (strip_trailing_newlines s) = fields s.
Proof.
  induction s as [|c s IH]; [reflexivity|].
  change (strip_trailing_newlines (String c s))
    with (if Ascii.eqb c LF && is_empty (strip_trailing_newlines s)
          then EmptyString else String c (strip_trailing_newlines s)).
  destruct (Ascii.eqb c LF && is_empty (strip_trailing_newlines s)) eqn:E.
  - apply andb_true_iff in E as [Ec Es]. apply Ascii.eqb_eq in Ec. subst c.
    rewrite fields_cons_blank by reflexivity. rewrite <- IH.
    destruct (strip_trailing_newlines s); [reflexivity | discriminate Es].
  - destruct (is_blank c) eqn:Eb.
    + rewrite !fields_cons_blank by exact Eb. exact IH.
    + rewrite !fields_cons_nonblank by exact Eb.
      rewrite strip_head, IH. reflexivity.
Qed.

Lemma fields_field_LF f rest :
  no_blank f ->
  fields (f +:+ String LF rest)
  = (if is_empty f then [] else [f]) ++ fields rest.
Proof.
  intros Hf. destruct f as [|c f].
  - apply fields_cons_blank. reflexivity.
  - apply fields_word_then_blank; [exact Hf | discriminate | reflexivity].
Qed.

(** The fields of what [awk] prints are the non-empty third fields of
    the records with [KeyArn]. *)
Lemma fields_awk_print3 ls :
  fields (awk_print3 ls)
  = List.filter (fun t => negb (is_empty t))
      (map (field 3) (List.filter (contains "KeyArn") ls)).
Proof.
  induction ls as [|l ls IH]; [reflexivity|].
  simpl. destruct (contains "KeyArn" l); [|exact IH].
  rewrite fields_field_LF by apply field_no_blank.
  simpl. rewrite IH. destruct (field 3 l); reflexivity.
Qed.

(** What [awk] prints holds only newlines and characters that are not
    blank. *)
Lemma awk_print3_chars ls :
  all_chars (fun c => Ascii.eqb c LF || negb (is_blank c)) (awk_print3 ls) = true.
Proof.
  induction ls as [|l ls IH]; [reflexivity|].
  simpl. destruct (contains "KeyArn" l); [|exact IH].
  pose proof (field_no_blank 3 l) as Hf. unfold no_blank in Hf.
  induction (field 3 l) as [|c f IHf].
  - simpl. exact IH.
  - rewrite append_cons. simpl in *.
    apply andb_true_iff in Hf as [Hc Hf]. rewrite Hc, orb_true_r. simpl.
    apply IHf. exact Hf.
Qed.

Lemma fields_nil_blank s : fields s = [] -> all_chars is_blank s = true.
Proof.
  induction s as [|c s IH]; [reflexivity|]. intros H.
  destruct (is_blank c) eqn:Eb.
  - simpl. rewrite Eb. simpl. apply IH.
    rewrite fields_cons_blank in H by exact Eb. exact H.
  - rewrite fields_cons_nonblank in H by exact Eb.
    destruct s as [|c' s']; [discriminate H|].
    destruct (is_blank c'); [discriminate H|].
    destruct (fields (String c' s')); discriminate H.
Qed.

Lemma strip_newlines_only s :
  all_chars (fun c => Ascii.eqb c LF) s = true -> strip_trailing_newlines s = EmptyString.
Proof.
  induction s as [|c s IH]; [reflexivity|]. simpl. intros H.
  apply andb_true_iff in H as [Hc Hs]. rewrite (IH Hs), Hc. reflexivity.
Qed.

(** X14: the words of [KEY_ARN] are, in order, the non-empty third fields of
    the lines with [KeyArn] in the selected regions; so [KEY_ARN] is
    empty, and the bootstrap stops at its key check, exactly when no such
    line has a third field. *)
Theorem words_of_the_key text :
  let thirds :=
    List.filter (fun t => negb (is_empty t))
      (map (field 3)
           (List.filter (contains "KeyArn") (sed_range false (lines text)))) in
  fields (extract_key_arn text) = thirds /\
  (extract_key_arn text = EmptyString <-> thirds = []).
Proof.
  cbn zeta.
  assert (Hf : fields (extract_key_arn text)
               = List.filter (fun t => negb (is_empty t))
                   (map (field 3)
                      (List.filter (contains "KeyArn") (sed_range false (lines text))))).
  { rewrite extract_key_arn_lines, fields_strip. apply fields_awk_print3. }
  split; [exact Hf|]. rewrite <- Hf. split.
  - intros ->. reflexivity.
  - rewrite extract_key_arn_lines, fields_strip. intros H.
    apply fields_nil_blank in H.
    apply strip_newlines_only.
    pose proof (awk_print3_chars (sed_range false (lines text))) as Hc.
    induction (awk_print3 (sed_range false (lines text))) as [|c s IHs];
      [reflexivity|].
    simpl in *. apply andb_true_iff in H as [Hb H].
    apply andb_true_iff in Hc as [Hc1 Hc].
    rewrite (IHs H Hc), andb_true_r.
    rewrite Hb in Hc1. simpl in Hc1. rewrite orb_false_r in Hc1. exact Hc1.
Qed.

(** X15: lines before the first line with [Outputs:] never count: the
    extraction gives what it gives on the rest of the text. Without any
    line with [Outputs:] the key is empty, even if the text mentions
    [KeyArn]; the bootstrap then exits at its key check, having launched
    nothing beyond the extraction. *)
Theorem nothing_before_outputs_counts :
  (forall text pre rest,
      lines text = pre ++ rest ->
      Forall (fun x => contains "Outputs:" x = false) pre ->
      extract_key_arn text = extract_key_arn (unlines rest)) /\
  (forall text,
      Forall (fun x => contains "Outputs:" x = false) (lines text) ->
      extract_key_arn text = EmptyString) /\
  (forall env w fs,
      accounts_set env ->
      Forall (fun x => contains "Outputs:" x = false)
             (lines (stdout (w pid_pipeline))) ->
      how (exec w 0 fs (automate_deployment env)) = Exited /\
      launched (trace (exec w 0 fs (automate_deployment env)))
      = phase1_commands env ++ stack_commands env ++ extraction_commands).
Proof.
  assert (Hnone : forall text,
             Forall (fun x => contains "Outputs:" x = false) (lines text) ->
             extract_key_arn text = EmptyString).
  { intros text H. rewrite extract_key_arn_lines, (sed_range_none _ H). reflexivity. }
  split; [|split; [exact Hnone|]].
  - intros text pre rest Hlines Hpre.
    rewrite !extract_key_arn_lines, Hlines, (sed_range_skip _ _ Hpre).
    rewrite lines_unlines; [reflexivity|].
    pose proof (lines_no_LF text) as Hno. rewrite Hlines in Hno.
    apply Forall_app in Hno. tauto.
  - intros env w fs Hacc Hout.
    rewrite (exec_until_check _ _ _ Hacc).
    unfold key_arn_in. rewrite (Hnone _ Hout), exec_check_empty.
    split; reflexivity.
Qed.

Lemma nothing_before_outputs_counts_witness :
  extract_key_arn
    (unlines ["Stack.ArtifactBucketEncryptionKeyArn = not-this-one";
              "Outputs:"; "Stack.ArtifactBucketEncryptionKeyArn = this-one"; ""])
  = extract_key_arn
      (unlines ["Outputs:"; "Stack.ArtifactBucketEncryptionKeyArn = this-one"; ""]).
Proof.
  refine (proj1 nothing_before_outputs_counts _
            ["Stack.ArtifactBucketEncryptionKeyArn = not-this-one"]
            ["Outputs:"; "Stack.ArtifactBucketEncryptionKeyArn = this-one"; ""] _ _).
  - reflexivity.
  - repeat constructor.
Defined.

(** X16: a region that no blank line closes runs to the end of the text: all
    the lines from the first one with [Outputs:] on are selected, and a
    single line with [KeyArn] among them still gives its third field. *)
Theorem region_without_closing_line text pre hdr body :
  lines text = pre ++ hdr :: body ->
  Forall (fun x => contains "Outputs:" x = false) pre ->
  contains "Outputs:" hdr = true ->
  Forall (fun x => x <> EmptyString) body ->
  sed_range false (lines text) = hdr :: body /\
  forall before l after,
    hdr :: body = before ++ l :: after ->
    Forall (fun x => contains "KeyArn" x = false) before ->
    contains "KeyArn" l = true ->
    Forall (fun x => contains "KeyArn" x = false) after ->
    extract_key_arn text = field 3 l.
Proof.
  intros Hlines Hpre Hhdr Hbody.
  assert (Hsel : sed_range false (lines text) = hdr :: body).
  { rewrite Hlines, (sed_range_skip _ _ Hpre). simpl.
    rewrite Hhdr, (sed_range_open _ Hbody). reflexivity. }
  split; [exact Hsel|].
  intros before l after Hsplit Hb Hl Ha.
  rewrite extract_key_arn_lines, Hsel, Hsplit.
  rewrite (awk_print3_single _ _ _ Hb Hl Ha).
  apply strip_app_LF, no_blank_no_LF, field_no_blank.
Qed.

Lemma region_without_closing_line_witness :
  extract_key_arn
    ("Outputs:" +:+ String LF "Stack.ArtifactBucketEncryptionKeyArn = arn:aws:kms:us-west-2:111111111111:key/abc")
  = "arn:aws:kms:us-west-2:111111111111:key/abc".
Proof.
  refine (proj2 (region_without_closing_line _ [] "Outputs:"
                   ["Stack.ArtifactBucketEncryptionKeyArn = arn:aws:kms:us-west-2:111111111111:key/abc"]
                   _ _ _ _)
            ["Outputs:"]
            "Stack.ArtifactBucketEncryptionKeyArn = arn:aws:kms:us-west-2:111111111111:key/abc"
            [] _ _ _ _).
  - reflexivity.
  - constructor.
  - reflexivity.
  - repeat constructor. discriminate.
  - reflexivity.
  - repeat constructor.
  - reflexivity.
  - constructor.
Defined.

End KeyArnFacts.
